(** * Asteroid pipeline: a shallow embedding of [project.py]

    The script loads a CSV table of near-Earth asteroid observations,
    keeps the rows from year 2000 on, and prints a few aggregates before
    drawing four charts.  This development embeds the script function by
    function and states its behaviour as theorems.

    Conventions of the embedding:
    - a data frame is an ordered list of column names and an ordered
      list of rows; a row carries its index label and a finite map from
      column name to cell;
    - a cell is a string, a number, a boolean or the missing value NaN;
      finite floating-point numbers are rationals, so comparisons are
      exact;
    - what the program leaves to its libraries, and they leave open, is
      a parameter of the embedding: the order in which equal counts are
      listed, and the rounded mean of a column;
    - strings are sequences of characters with code points below 256;
    - data frames are mutable objects: they live in a store and are
      passed by reference, so an in-place update is seen by the caller;
    - a Python exception is an [Err] outcome carrying the exception. *)

From Stdlib Require Import ZArith QArith Qround Qabs Qcanon String Ascii List Sorted Lia.
From stdpp Require Import base numbers option list strings gmap.

Open Scope Z_scope.
Open Scope string_scope.
Open Scope list_scope.

(** ** Exceptions *)

Inductive exn_class :=
  | BaseException_ | Exception_
  | KeyboardInterrupt | SystemExit
  | OSError | FileNotFoundError | PermissionError
  | ValueError | EmptyDataError | ParserError | UnicodeDecodeError
  | TypeError | KeyError | NameError | AttributeError | MemoryError
  | IndexingError | SystemError.

Global Instance exn_class_eq_dec : EqDecision exn_class.
Proof. solve_decision. Defined.

(** The direct base class, as in Python's and pandas' class hierarchy. *)
Definition exn_base (c : exn_class) : option exn_class :=
  match c with
  | BaseException_ => None
  | Exception_ | KeyboardInterrupt | SystemExit => Some BaseException_
  | FileNotFoundError | PermissionError => Some OSError
  | EmptyDataError | ParserError | UnicodeDecodeError => Some ValueError
  | OSError | ValueError | TypeError | KeyError | NameError
  | AttributeError | MemoryError | IndexingError | SystemError =>
      Some Exception_
  end.

Fixpoint is_subclass_fuel (n : nat) (c h : exn_class) : bool :=
  if decide (c = h) then true
  else match n with
       | O => false
       | S n' => match exn_base c with
                 | Some b => is_subclass_fuel n' b h
                 | None => false
                 end
       end.

(** No class is deeper than three steps below [BaseException_]. *)
Definition is_subclass : exn_class -> exn_class -> bool := is_subclass_fuel 4.

Record exn := Exn { exn_cls : exn_class; exn_arg : string }.

Global Instance exn_eq_dec : EqDecision exn.
Proof. solve_decision. Defined.

(** [except h:] catches [e]. *)
Definition catches (h : exn_class) (e : exn) : bool := is_subclass (exn_cls e) h.

Inductive result (A : Type) :=
  | Ok (a : A)
  | Err (e : exn).
Arguments Ok {A} a.
Arguments Err {A} e.

Global Instance result_ret : MRet result := fun A a => Ok a.
Global Instance result_bind : MBind result := fun A B f m =>
  match m with
  | Ok a => f a
  | Err e => Err e
  end.

(** ** Cells *)

Inductive value :=
  | VStr (s : string)
  | VNum (q : Qc)
  | VBool (b : bool)
  | VNaN.

Global Instance value_eq_dec : EqDecision value.
Proof. solve_decision. Defined.

Definition is_nan (v : value) : bool :=
  match v with VNaN => true | _ => false end.

(** ** Text routines of the interpreter used by [extract_year] *)

(** [s.split(sep)] for a one-character separator: one more part than
    there are separators, empty parts included. *)
Fixpoint split_on (sep : ascii) (s : string) : list string :=
  match s with
  | EmptyString => [EmptyString]
  | String c rest =>
      if Ascii.eqb c sep then EmptyString :: split_on sep rest
      else match split_on sep rest with
           | [] => [String c EmptyString]
           | p :: ps => String c p :: ps
           end
  end.

(** A character is a code point below 256.  White space, as [strip] and
    [int] see it: the control characters 9 to 13 and 28 to 31, the
    space, the next-line character and the no-break space. *)
Definition is_space (c : ascii) : bool :=
  let n := nat_of_ascii c in
  ((9 <=? n)%nat && (n <=? 13)%nat) || ((28 <=? n)%nat && (n <=? 32)%nat)
  || (n =? 133)%nat || (n =? 160)%nat.

Definition digit_of (c : ascii) : option Z :=
  let n := nat_of_ascii c in
  if ((48 <=? n)%nat && (n <=? 57)%nat) then Some (Z.of_nat n - 48) else None.

Fixpoint lstrip (s : string) : string :=
  match s with
  | String c rest => if is_space c then lstrip rest else s
  | EmptyString => EmptyString
  end.

Fixpoint rstrip (s : string) : string :=
  match s with
  | EmptyString => EmptyString
  | String c rest =>
      match rstrip rest with
      | EmptyString => if is_space c then EmptyString else String c EmptyString
      | r => String c r
      end
  end.

(** Decimal digits with single underscores allowed between digits.
    [prev] tells whether the previous character was a digit. *)
Fixpoint parse_digits (prev : bool) (acc : Z) (s : string) : option Z :=
  match s with
  | EmptyString => if prev then Some acc else None
  | String c rest =>
      match digit_of c with
      | Some d => parse_digits true (10 * acc + d) rest
      | None =>
          if Ascii.eqb c "_"%char && prev then parse_digits false acc rest
          else None
      end
  end.

Fixpoint count_digits (s : string) : nat :=
  match s with
  | EmptyString => O
  | String c rest =>
      ((match digit_of c with Some _ => 1 | None => 0 end) + count_digits rest)%nat
  end.

(** The interpreter's default limit on the number of digits of an
    integer read from text. *)
Definition max_str_digits : nat := 4300.

(** [int(s)] in base ten: surrounding white space, an optional sign,
    then the digits, no more than [max_str_digits] of them.  [None]
    stands for [ValueError], which is raised for an ill-formed literal
    and for one with too many digits alike. *)
Definition py_int (s : string) : option Z :=
  let body := lstrip (rstrip s) in
  if (max_str_digits <? count_digits body)%nat then None
  else
    match body with
    | String "+"%char rest => parse_digits false 0 rest
    | String "-"%char rest => Z.opp <$> parse_digits false 0 rest
    | _ => parse_digits false 0 body
    end.

(** ** [extract_year] *)

(** The argument is a cell of the date column.  Only strings have a
    [split] method; [ValueError] from [int] is caught, any other
    exception propagates. *)
Definition extract_year (date_str : value) : result (option Z) :=
  match date_str with
  | VStr s =>
      match split_on "-"%char s with
      | [y; _; _] =>
          match py_int y with
          | Some n => Ok (Some n)
          | None => Ok None
          end
      | _ => Ok None
      end
  | VNum _ => Err (Exn AttributeError "'float' object has no attribute 'split'")
  | VBool _ => Err (Exn AttributeError "'bool' object has no attribute 'split'")
  | VNaN => Err (Exn AttributeError "'float' object has no attribute 'split'")
  end.

(** ** Data frames *)

Record Row := mkRow { label : Z; cells : gmap string value }.

Record DataFrame := mkFrame { columns : list string; rows : list Row }.

(** A cell that a row does not hold is the missing value. *)
Definition cell (r : Row) (c : string) : value := default VNaN (cells r !! c).

Definition index (df : DataFrame) : list Z := label <$> rows df.

(** [df.shape] *)
Definition shape (df : DataFrame) : nat * nat :=
  (length (rows df), length (columns df)).

(** [df[c]]: the column as a series of labelled cells. *)
Definition getitem (df : DataFrame) (c : string) : result (list (Z * value)) :=
  if decide (c ∈ columns df)
  then Ok ((fun r => (label r, cell r c)) <$> rows df)
  else Err (Exn KeyError c).

(** [s.apply(f)] *)
Fixpoint series_apply {A B : Type} (f : A -> result B) (s : list (Z * A))
  : result (list (Z * B)) :=
  match s with
  | [] => Ok []
  | (l, v) :: s' =>
      b ← f v;
      s'' ← series_apply f s';
      Ok ((l, b) :: s'')
  end.

Definition set_cell (c : string) (r : Row) (v : value) : Row :=
  mkRow (label r) (<[c := v]> (cells r)).

Definition series_lookup (l : Z) (s : list (Z * value)) : option value :=
  snd <$> List.find (fun lv => bool_decide (lv.1 = l)) s.

(** [df[c] = s].  A series with the frame's own index is stored as it
    is; any other series is first aligned on the labels, which the
    library refuses when the series repeats a label.  An existing column
    is overwritten in place, a new one is appended. *)
Definition setitem (df : DataFrame) (c : string) (s : list (Z * value))
  : result DataFrame :=
  let cols := if decide (c ∈ columns df) then columns df else columns df ++ [c] in
  if decide (s.*1 = index df) then
    Ok (mkFrame cols (zip_with (set_cell c) (rows df) (s.*2)))
  else if decide (NoDup (s.*1)) then
    Ok (mkFrame cols
          ((fun r => set_cell c r (default VNaN (series_lookup (label r) s)))
             <$> rows df))
  else Err (Exn ValueError "cannot reindex on an axis with duplicate labels").

(** [v >= k] for a cell against an integer: missing values compare
    false, text does not compare with a number. *)
Definition ge_scalar (k : Z) (v : value) : result bool :=
  match v with
  | VNum q => Ok (bool_decide (Qc_of_Z k ≤ q)%Qc)
  | VBool b => Ok (bool_decide (k ≤ (if b then 1 else 0))%Z)
  | VNaN => Ok false
  | VStr _ =>
      Err (Exn TypeError "'>=' not supported between instances of 'str' and 'int'")
  end.

Fixpoint select_rows (rs : list Row) (m : list bool) : list Row :=
  match rs, m with
  | r :: rs', b :: m' => if b then r :: select_rows rs' m' else select_rows rs' m'
  | _, _ => []
  end.

(** [df[mask]] for a boolean series: a new frame with the selected rows. *)
Definition getitem_mask (df : DataFrame) (m : list (Z * bool)) : result DataFrame :=
  if decide (m.*1 = index df)
  then Ok (mkFrame (columns df) (select_rows (rows df) (m.*2)))
  else Err (Exn IndexingError "Unalignable boolean Series provided as indexer").

Definition drop_cells (cs : list string) (r : Row) : Row :=
  mkRow (label r) (foldr delete (cells r) cs).

(** [df.drop(columns=cs, errors=...)]: the frame without the columns
    named in [cs].  With [errors='raise'] a name that is not a column is
    a [KeyError]; with [errors='ignore'] it is skipped. *)
Definition drop_columns (ignore_missing : bool) (df : DataFrame) (cs : list string)
  : result DataFrame :=
  let dropped :=
    mkFrame (filter (fun c => c ∉ cs) (columns df)) (drop_cells cs <$> rows df) in
  match filter (fun c => c ∉ columns df) cs with
  | [] => Ok dropped
  | c :: _ => if ignore_missing then Ok dropped else Err (Exn KeyError c)
  end.

Definition keep_cells (cs : list string) (r : Row) : Row :=
  mkRow (label r) (filter (fun kv => kv.1 ∈ cs) (cells r)).

(** [df[[c1, ..., cn]]]: a new frame with exactly the listed columns, in
    the listed order; every name must be a column. *)
Definition getitem_list (df : DataFrame) (cs : list string) : result DataFrame :=
  match filter (fun c => c ∉ columns df) cs with
  | [] => Ok (mkFrame cs (keep_cells cs <$> rows df))
  | c :: _ => Err (Exn KeyError c)
  end.

(** ** Numeric reductions *)

(** The number a cell stands for in a reduction: booleans count as 0
    and 1, the missing value is skipped, text is refused.  (How the
    library reduces a column of text differs between its versions; no
    statement below depends on it.) *)
Definition as_number (v : value) : result (option Qc) :=
  match v with
  | VNum q => Ok (Some q)
  | VBool b => Ok (Some (if b then 1 else 0)%Qc)
  | VNaN => Ok None
  | VStr _ => Err (Exn TypeError "reduction operation not allowed for this dtype")
  end.

(** One pass keeping the first best entry: the champion changes only
    for a strictly better value. *)
Fixpoint arg_best (better : Qc -> Qc -> bool) (best : option (Z * Qc))
  (s : list (Z * value)) : result (option (Z * Qc)) :=
  match s with
  | [] => Ok best
  | (l, v) :: s' =>
      o ← as_number v;
      match o, best with
      | None, _ => arg_best better best s'
      | Some q, None => arg_best better (Some (l, q)) s'
      | Some q, Some (_, b) =>
          if better q b then arg_best better (Some (l, q)) s'
          else arg_best better best s'
      end
  end.

Definition no_extremum : exn :=
  Exn ValueError "attempt to get argmax or argmin of an empty sequence".

(** [s.idxmax()]: the label of the first maximal cell, missing values
    skipped. *)
Definition idxmax (s : list (Z * value)) : result Z :=
  r ← arg_best (fun q b => bool_decide (b < q)%Qc) None s;
  match r with
  | Some (l, _) => Ok l
  | None => Err no_extremum
  end.

(** [s.idxmin()] *)
Definition idxmin (s : list (Z * value)) : result Z :=
  r ← arg_best (fun q b => bool_decide (q < b)%Qc) None s;
  match r with
  | Some (l, _) => Ok l
  | None => Err no_extremum
  end.

(** [df.loc[l, c]]: the cell of column [c] in every row labelled [l]. *)
Definition loc (df : DataFrame) (l : Z) (c : string) : result (list value) :=
  if decide (c ∈ columns df) then
    match filter (fun r => label r = l) (rows df) with
    | [] => Err (Exn KeyError "label not in index")
    | rs => Ok ((fun r => cell r c) <$> rs)
    end
  else Err (Exn KeyError c).

(** A conversion function applied to the outcome of [loc]: a scalar
    when one row bears the label, refused on a longer series. *)
Definition scalar (vs : list value) : result value :=
  match vs with
  | [v] => Ok v
  | _ => Err (Exn TypeError "cannot convert the series to a scalar")
  end.

(** [int(x)] for the number [x]: rounding toward zero. *)
Definition truncate (q : Qc) : Z := Z.quot (Qnum q) (Zpos (Qden q)).

(** [int(v)] *)
Definition int_of_value (v : value) : result Z :=
  match v with
  | VNum q => Ok (truncate q)
  | VBool b => Ok (if b then 1 else 0)
  | VStr s =>
      match py_int s with
      | Some n => Ok n
      | None => Err (Exn ValueError "invalid literal for int() with base 10")
      end
  | VNaN => Err (Exn ValueError "cannot convert float NaN to integer")
  end.

(** [float(v)].  Decimal text is not parsed here: the only caller reads
    a cell that [idxmax] has already accepted as a number. *)
Definition float_of_value (v : value) : result Qc :=
  match v with
  | VNum q => Ok q
  | VBool b => Ok (if b then 1 else 0)%Qc
  | VStr _ => Err (Exn ValueError "could not convert string to float")
  | VNaN => Err (Exn ValueError "missing value")
  end.

Fixpoint numbers_of (s : list value) : result (list Qc) :=
  match s with
  | [] => Ok []
  | v :: s' =>
      o ← as_number v;
      qs ← numbers_of s';
      Ok (match o with Some q => q :: qs | None => qs end)
  end.

(** The entries of a numeric series, [None] for a missing one. *)
Fixpoint entries_of (s : list value) : result (list (option Qc)) :=
  match s with
  | [] => Ok []
  | v :: s' =>
      o ← as_number v;
      es ← entries_of s';
      Ok (o :: es)
  end.

(** ** The libraries

    Two things the program takes from its libraries are fixed neither by
    the program nor by the libraries' documentation: the order in which
    [value_counts] lists equal counts (it sorts by decreasing count with
    a sorting routine that need not keep equal keys in place), and the
    rounding of a mean computed in binary64 arithmetic (it depends on
    the order in which the library adds the entries).  They are the
    fields of a [Library]; the program is embedded for any library. *)
Record Library := mkLibrary {
  sort_counts : list (value * nat) -> list (value * nat);
  mean_of : list (option Qc) -> Qc
}.

(** [s.mean()]: the library's mean of the entries present; the missing
    value when none is present. *)
Definition series_mean (lib : Library) (s : list value) : result value :=
  es ← entries_of s;
  match omap id es with
  | [] => Ok VNaN
  | _ => Ok (VNum (mean_of lib es))
  end.

(** [v > m] between a cell and the outcome of a reduction. *)
Definition gt_value (m v : value) : result bool :=
  a ← as_number v;
  match a, m with
  | Some x, VNum y => Ok (bool_decide (y < x)%Qc)
  | _, _ => Ok false
  end.

(** ** Counting by value *)

Fixpoint bump (k : value) (acc : list (value * nat)) : list (value * nat) :=
  match acc with
  | [] => [(k, 1%nat)]
  | (k', n) :: acc' =>
      if decide (k = k') then (k', S n) :: acc' else (k', n) :: bump k acc'
  end.

(** One entry per distinct value, in the order of first encounter. *)
Definition group_count (l : list value) : list (value * nat) :=
  foldl (fun acc k => bump k acc) [] l.

Fixpoint insert_desc (e : value * nat) (l : list (value * nat))
  : list (value * nat) :=
  match l with
  | [] => [e]
  | e' :: l' =>
      if (e'.2 <=? e.2)%nat then e :: l else e' :: insert_desc e l'
  end.

(** A sort by decreasing count that keeps equal counts in the order
    they come in. *)
Definition sort_desc (l : list (value * nat)) : list (value * nat) :=
  foldr insert_desc [] l.



(** [s.nunique()]: how many distinct values are present. *)
Definition nunique (s : list value) : nat :=
  length (group_count (filter (fun v => is_nan v = false) s)).

(** [s.value_counts()]: missing values are dropped, the distinct values
    are counted, and the counts are sorted by the library. *)
Definition value_counts (lib : Library) (s : list value) : list (value * nat) :=
  sort_counts lib (group_count (filter (fun v => is_nan v = false) s)).

(** ** Binary64 arithmetic, for the samples *)

(** The integer nearest to [q], the even one of two equally near. *)
Definition round_half_even (q : Q) : Z :=
  let f := Qfloor q in
  match Qcompare (q - inject_Z f) (1 # 2) with
  | Lt => f
  | Gt => (f + 1)%Z
  | Eq => if Z.even f then f else (f + 1)%Z
  end.

(** The binary64 number nearest to [q], ties to the even significand:
    53 significant bits above the least exponent, fewer at it.  The
    greatest exponent is not represented: the samples stay far from
    it. *)
Definition round64 (q : Qc) : Qc :=
  let a := Qabs q in
  if Qeq_bool a 0 then 0%Qc
  else
    let e0 := (Z.log2 (Qnum a) - Z.log2 (Zpos (Qden a)) - 52)%Z in
    let e1 :=
      if Qle_bool (inject_Z (2 ^ 52)) (a * Qpower 2 (- e0)) then e0
      else (e0 - 1)%Z in
    let e := Z.max e1 (-1074) in
    let r := (inject_Z (round_half_even (a * Qpower 2 (- e))) * Qpower 2 e)%Q in
    Q2Qc (if Qle_bool 0 q then r else - r).

(** The binary64 mean of the entries present, added from left to
    right. *)
Definition mean64 (es : list (option Qc)) : Qc :=
  let qs := omap id es in
  round64 (foldl (fun a q => round64 (a + q)) 0 qs / Qc_of_Z (Z.of_nat (length qs)))%Qc.

(** A library that keeps equal counts in the order they come in and
    adds from left to right, and one that differs from it in the order
    of equal counts only. *)
Definition reference : Library := mkLibrary sort_desc mean64.


(** ** Objects, output and the store *)

Definition ref := nat.

Local Unset Elimination Schemes.

(** The Python values that travel between the functions of the script. *)
Inductive obj :=
  | ONone
  | OInt (n : Z)
  | OStr (s : string)
  | OFrame (r : ref)
  | OList (l : list obj)
  | OTuple (l : list obj).

Local Set Elimination Schemes.

(** A printed line keeps the formatted fields apart: the decimal layout
    of a number is the interpreter's business. *)
Inductive fragment :=
  | FText (s : string)
  | FInt (n : Z)
  | FNum (q : Qc)
  | FCell (v : value)
  | FExn (e : exn).

(** Spacing of the ticks on the x axis of the diameter histogram: the
    constant 0.2, or the fourteenth part of the span between the least
    and the greatest plotted value. *)
Inductive tick_rule :=
  | TickFixed
  | TickSpan (lo hi : Qc).

(** What each chart is drawn from.  Titles, sizes and styles are
    constants of the script and are left out. *)
Inductive chart :=
  | DiameterHist (data : list value) (bins : nat) (color : string)
      (show_grid : bool) (ticks : tick_rule)
  | OrbitIntersectionHist (data : list value) (bins : nat)
  | HazardPie (slices : list (string * nat * bool))
  | MagnitudeScatter (xs ys : list value).

Inductive event :=
  | Print (line : list fragment)
  | Show (c : chart).

Record State := mkState { store : list DataFrame; output : list event }.

Definition M (A : Type) : Type := State -> result A * State.

Global Instance M_ret : MRet M := fun A a st => (Ok a, st).
Global Instance M_bind : MBind M := fun A B f m st =>
  match m st with
  | (Ok a, st') => f a st'
  | (Err e, st') => (Err e, st')
  end.

Definition lift {A : Type} (r : result A) : M A := fun st => (r, st).

Definition raise {A : Type} (c : exn_class) (msg : string) : M A :=
  lift (Err (Exn c msg)).

(** A reference always designates an object; the error branch is there
    to keep the function total. *)
Definition read_frame (r : ref) : M DataFrame := fun st =>
  match store st !! r with
  | Some t => (Ok t, st)
  | None => (Err (Exn SystemError "dangling reference"), st)
  end.

Definition write_frame (r : ref) (t : DataFrame) : M unit := fun st =>
  (Ok tt, mkState (<[r := t]> (store st)) (output st)).

Definition alloc (t : DataFrame) : M ref := fun st =>
  (Ok (length (store st)), mkState (store st ++ [t]) (output st)).

Definition emit (e : event) : M unit := fun st =>
  (Ok tt, mkState (store st) (output st ++ [e])).

Definition print (line : list fragment) : M unit := emit (Print line).

Fixpoint for_each {A : Type} (body : A -> M unit) (l : list A) : M unit :=
  match l with
  | [] => mret tt
  | a :: l' => _ ← body a; for_each body l'
  end.

(** [try: body except h1: k1 ... except hn: kn].  The class expression
    of a clause is evaluated when the clause is reached, and may itself
    raise. *)
Fixpoint handle {A : Type} (e : exn)
  (clauses : list (result exn_class * (exn -> M A))) : M A :=
  match clauses with
  | [] => lift (Err e)
  | (Err e', _) :: _ => lift (Err e')
  | (Ok h, k) :: clauses' => if catches h e then k e else handle e clauses'
  end.

Definition try_except {A : Type} (body : M A)
  (clauses : list (result exn_class * (exn -> M A))) : M A := fun st =>
  match body st with
  | (Ok a, st') => (Ok a, st')
  | (Err e, st') => handle e clauses st'
  end.

(** A call of a one-parameter function with the positional arguments
    [args]. *)
Definition call1 {A B : Type} (fname pname : string) (f : A -> M B)
  (args : list A) : M B :=
  match args with
  | [a] => f a
  | [] =>
      raise TypeError
        (fname ++ "() missing 1 required positional argument: '" ++ pname ++ "'")
  | _ => raise TypeError (fname ++ "() takes 1 positional argument")
  end.

(** ** The environment of the module *)

(** The script imports nothing, so what the names [pd], [np] and [plt]
    stand for is up to whoever runs it; and what [pd.read_csv] finds at
    a path is up to the file system. *)
Record Env := mkEnv {
  pd_bound : bool;
  np_bound : bool;
  plt_bound : bool;
  np_has_linregress : bool;
  read_csv : string -> result DataFrame
}.

(** Looking up a global name. *)
Definition global (bound : bool) (name : string) : result unit :=
  if bound then Ok tt
  else Err (Exn NameError ("name '" ++ name ++ "' is not defined")).

(** The module as it is shipped: no import statement. *)
Definition shipped (files : string -> result DataFrame) : Env :=
  mkEnv false false false false files.

(** ** Stage 1: [load_data] *)

Definition msg_not_found : list fragment := [FText "Error: The file was not found."].
Definition msg_empty : list fragment := [FText "Error: The file is empty."].
Definition msg_malformed : list fragment :=
  [FText "Error: Failed to parse the file. Please check its format."].
Definition msg_unexpected (e : exn) : list fragment :=
  [FText "Error: An unexpected error occurred - "; FExn e].

Definition load_data (env : Env) (filename : string) : M obj :=
  try_except
    (_ ← lift (global (pd_bound env) "pd");
     t ← lift (read_csv env filename);
     df ← alloc t;
     mret (OFrame df))
    [ (Ok FileNotFoundError,
        fun _ => _ ← print msg_not_found; mret ONone);
      (_ ← global (pd_bound env) "pd"; Ok EmptyDataError,
        fun _ => _ ← print msg_empty; mret ONone);
      (_ ← global (pd_bound env) "pd"; Ok ParserError,
        fun _ => _ ← print msg_malformed; mret ONone);
      (Ok Exception_,
        fun unexpected => _ ← print (msg_unexpected unexpected); mret ONone) ].

(** ** Stage 2: [mask_data] *)

(** The cell stored for an extracted year; an absent year is a missing
    value of the new column. *)
Definition year_cell (y : option Z) : value :=
  match y with
  | Some n => VNum (Qc_of_Z n)
  | None => VNaN
  end.

Definition mask_data (df : ref) : M ref :=
  t ← read_frame df;
  dates ← lift (getitem t "Close Approach Date");
  years ← lift (series_apply extract_year dates);
  t1 ← lift (setitem t "year" (prod_map id year_cell <$> years));
  _ ← write_frame df t1;
  ycol ← lift (getitem t1 "year");
  mask ← lift (series_apply (ge_scalar 2000) ycol);
  selected ← lift (getitem_mask t1 mask);
  res ← lift (drop_columns false selected ["year"]);
  alloc res.

(** ** Stage 3: [data_details] *)

Definition pruned_columns : list string :=
  ["Orbiting Body"; "Neo Reference ID"; "Equinox"].

Definition data_details (df : ref) : M obj :=
  t ← read_frame df;
  t' ← lift (drop_columns true t pruned_columns);
  _ ← write_frame df t';
  let num_rows := (shape t').1 in
  let num_cols := (shape t').2 in
  let titles := columns t' in
  mret (OTuple [OInt (Z.of_nat num_rows); OInt (Z.of_nat num_cols);
                OList (OStr <$> titles)]).

(** ** Stages 4 to 7: the aggregate queries *)

Definition max_absolute_magnitude (df : DataFrame) : result (Z * Qc) :=
  col ← getitem df "Absolute Magnitude";
  max_index ← idxmax col;
  name_cell ← loc df max_index "Name";
  name ← scalar name_cell ≫= int_of_value;
  magnitude_cell ← loc df max_index "Absolute Magnitude";
  magnitude ← scalar magnitude_cell ≫= float_of_value;
  Ok (name, magnitude).

Definition closest_to_earth (df : DataFrame) : result Z :=
  col ← getitem df "Miss Dist.(kilometers)";
  min_index ← idxmin col;
  name_cell ← loc df min_index "Name";
  scalar name_cell ≫= int_of_value.

Definition common_orbit (lib : Library) (df : DataFrame)
  : result (list (value * nat)) :=
  col ← getitem df "Orbit ID";
  Ok (value_counts lib (col.*2)).

Definition min_max_diameter (lib : Library) (df : DataFrame) : result nat :=
  col ← getitem df "Est Dia in KM(min)";
  mean_val ← series_mean lib (col.*2);
  mask ← series_apply (gt_value mean_val) col;
  above ← getitem_mask df mask;
  Ok (shape above).1.

(** ** Stage 8: [run_analysis_and_print] *)

Definition run_analysis_and_print (lib : Library) (df : ref) : M unit :=
  t ← read_frame df;
  _ ← print [FText "Saving mock_asteroid_data.csv to mock_asteroid_data.csv"];
  _ ← print [FText "Data shape: "; FInt (Z.of_nat (shape t).1); FText " rows x ";
             FInt (Z.of_nat (shape t).2); FText " columns"];
  _ ← print [FText "Table Column Headers:"];
  _ ← for_each (fun col => print [FText "  "; FText col]) (columns t);
  '(max_name, max_val) ← lift (max_absolute_magnitude t);
  _ ← print [FText "Max absolute magnitude:"];
  _ ← print [FText "  ("; FInt max_name; FText ", "; FNum max_val; FText ")"];
  closest_name ← lift (closest_to_earth t);
  _ ← print [FText "Closest to Earth asteroid:"];
  _ ← print [FText "  "; FInt closest_name];
  _ ← print [FText "Orbit frequency:"];
  orbits ← lift (common_orbit lib t);
  _ ← for_each
        (fun oc => print [FText "  "; FCell oc.1; FText ": "; FInt (Z.of_nat oc.2)])
        orbits;
  above_mean ← lift (min_max_diameter lib t);
  _ ← print [FText "Asteroids above mean diameter:"];
  print [FText "  "; FInt (Z.of_nat above_mean)].

(** ** Stages 9 to 12: the charts *)

Definition row_mean (lib : Library) (cs : list string) (r : Row) : result value :=
  series_mean lib ((cell r) <$> cs).

Fixpoint row_means (lib : Library) (cs : list string) (rs : list Row)
  : result (list value) :=
  match rs with
  | [] => Ok []
  | r :: rs' =>
      m ← row_mean lib cs r;
      ms ← row_means lib cs rs';
      Ok (m :: ms)
  end.

Definition Qc_min_list (qs : list Qc) : option Qc :=
  match qs with
  | [] => None
  | q :: qs' => Some (foldl (fun a b => if bool_decide (b < a)%Qc then b else a) q qs')
  end.

Definition Qc_max_list (qs : list Qc) : option Qc :=
  match qs with
  | [] => None
  | q :: qs' => Some (foldl (fun a b => if bool_decide (a < b)%Qc then b else a) q qs')
  end.

(** The tick positions are laid out by [np.arange], which needs a
    defined, non-zero step: the span rule fails when all plotted values
    coincide, and both rules fail when there is no value at all. *)
Definition tick_positions (lo hi : option Qc) (many_orbits : bool)
  : result tick_rule :=
  match lo, hi with
  | Some a, Some b =>
      if many_orbits then Ok TickFixed
      else if decide (a = b) then Err (Exn ValueError "arange: cannot compute length")
      else Ok (TickSpan a b)
  | _, _ => Err (Exn ValueError "arange: cannot compute length")
  end.

Definition diameter_columns : list string :=
  ["Est Dia in KM(min)"; "Est Dia in KM(max)"].

Definition plt_hist_diameter_improved (lib : Library) (env : Env) (df : ref)
  (bins : nat) (color : string) (show_grid : bool) : M unit :=
  t ← read_frame df;
  both ← lift (getitem_list t diameter_columns);
  avg_diameter ← lift (row_means lib diameter_columns (rows both));
  _ ← lift (global (plt_bound env) "plt");
  present ← lift (numbers_of avg_diameter);
  let min_val := Qc_min_list present in
  let max_val := Qc_max_list present in
  orbit ← lift (getitem t "Orbit ID");
  let orbit_count := nunique (orbit.*2) in
  _ ← lift (global (np_bound env) "np");
  ticks ← lift (tick_positions min_val max_val (100 <? orbit_count)%nat);
  emit (Show (DiameterHist avg_diameter bins color show_grid ticks)).

(** The limits of the x axis are the least and the greatest value of
    the column: they are undefined, and refused, when the column holds
    no number. *)
Definition plt_hist_common_orbit (env : Env) (df : ref) : M unit :=
  _ ← lift (global (plt_bound env) "plt");
  t ← read_frame df;
  col ← lift (getitem t "Minimum Orbit Intersection");
  present ← lift (numbers_of (col.*2));
  _ ← (match present with
       | [] => raise ValueError "Axis limits cannot be NaN or Inf"
       | _ => mret tt
       end);
  emit (Show (OrbitIntersectionHist (col.*2) 10)).

(** [val == 1] *)
Definition equals_one (v : value) : bool :=
  match v with
  | VNum q => bool_decide (q = 1%Qc)
  | VBool b => b
  | _ => false
  end.

(** The plotting library refuses a pie without slices. *)
Definition plt_pie_hazard (lib : Library) (env : Env) (df : ref) : M unit :=
  t ← read_frame df;
  col ← lift (getitem t "Hazardous");
  let counts := value_counts lib (col.*2) in
  let labels :=
    (fun vc : value * nat =>
       if equals_one vc.1 then "Hazardous" else "Non-Hazardous") <$> counts in
  let explode := (fun l => bool_decide (l = "Hazardous")) <$> labels in
  _ ← lift (global (plt_bound env) "plt");
  _ ← (match counts with
       | [] => raise ValueError "cannot draw a pie without slices"
       | _ => mret tt
       end);
  emit (Show (HazardPie (zip (zip labels (counts.*2)) explode))).

(** The regression is asked of [np], which has to offer [linregress];
    its coefficients are floating-point results and are not part of the
    recorded chart. *)
Definition plt_linear_motion_magnitude (env : Env) (df : ref) : M unit :=
  t ← read_frame df;
  x ← lift (getitem t "Miles per hour");
  y ← lift (getitem t "Absolute Magnitude");
  _ ← lift (global (np_bound env) "np");
  _ ← (if np_has_linregress env then mret tt
       else raise AttributeError "module has no attribute 'linregress'");
  _ ← lift (global (plt_bound env) "plt");
  emit (Show (MagnitudeScatter (x.*2) (y.*2))).

(** ** Stage 13: the statements of the module *)

Definition relevant_columns : list string :=
  ["Name"; "Close Approach Date"; "Absolute Magnitude";
   "Miss Dist.(kilometers)"; "Orbit ID";
   "Est Dia in KM(min)"; "Est Dia in KM(max)";
   "Minimum Orbit Intersection"; "Miles per hour"; "Hazardous";
   "Orbiting Body"; "Neo Reference ID"; "Equinox"].

(** Subscripting the value bound to [df]: only a frame can be
    subscripted by a column name. *)
Definition as_frame (o : obj) : M ref :=
  match o with
  | OFrame r => mret r
  | ONone => raise TypeError "'NoneType' object is not subscriptable"
  | _ => raise TypeError "indices must be integers"
  end.

(** [df = mask_data(df)] followed by the selection of the relevant
    columns: what the script does to the loaded value before it reports. *)
Definition prepare (loaded : obj) : M ref :=
  df ← as_frame loaded;
  df ← mask_data df;
  t ← read_frame df;
  t' ← lift (getitem_list t relevant_columns);
  alloc t'.

(** The analysis and the four charts, all on the same frame. *)
Definition report (lib : Library) (env : Env) (df : ref) : M unit :=
  _ ← run_analysis_and_print lib df;
  _ ← plt_hist_diameter_improved lib env df 30 "blue" true;
  _ ← plt_hist_common_orbit env df;
  _ ← plt_pie_hazard lib env df;
  plt_linear_motion_magnitude env df.

(** The module body after the function definitions.  [load_data] is
    called with no argument. *)
Definition main (lib : Library) (env : Env) : M unit :=
  loaded ← call1 "load_data" "filename" (load_data env) [];
  df ← prepare loaded;
  report lib env df.

(** The state in which the module starts: no object, nothing printed. *)
Definition initial : State := mkState [] [].

(** * Notions used in the statements *)

Definition date_column : string := "Close Approach Date".

(** A date cell that splits on the hyphen into exactly three parts, the
    first of which reads as an integer not below 2000. *)
Definition from_2000 (date : value) : Prop :=
  exists s a b c y,
    date = VStr s /\ split_on "-"%char s = [a; b; c] /\
    py_int a = Some y /\ 2000 <= y.

Definition from_2000b (date : value) : bool :=
  match date with
  | VStr s =>
      match split_on "-"%char s with
      | [a; _; _] =>
          match py_int a with
          | Some y => bool_decide (2000 <= y)
          | None => false
          end
      | _ => false
      end
  | _ => false
  end.

Global Instance from_2000_dec (v : value) : Decision (from_2000 v).
Proof.
  refine (match decide (from_2000b v = true) with
          | left Hyes => left _
          | right Hno => right _
          end).
  - abstract (unfold from_2000, from_2000b in *;
      destruct v as [s| | |]; try discriminate;
      destruct (split_on "-"%char s) as [|a [|b [|c [|? ?]]]] eqn:Hs;
        try discriminate;
      destruct (py_int a) as [y|] eqn:Hy; try discriminate;
      apply bool_decide_eq_true_1 in Hyes;
      exists s, a, b, c, y; repeat split; assumption).
  - abstract (intros (s & a & b & c & y & -> & Hs & Hy & Hge);
      apply Hno; unfold from_2000b; rewrite Hs, Hy;
      by apply bool_decide_eq_true_2).
Defined.

Definition is_text (v : value) : bool :=
  match v with VStr _ => true | _ => false end.

(** The argument of [mask_data] after the call: the year column has
    been written into it. *)
Definition year_of (r : Row) : value :=
  match extract_year (cell r date_column) with
  | Ok y => year_cell y
  | Err _ => VNaN
  end.

Definition with_year (t : DataFrame) : DataFrame :=
  mkFrame (if decide ("year" ∈ columns t) then columns t else columns t ++ ["year"])
          ((fun r => set_cell "year" r (year_of r)) <$> rows t).

(** A frame with the columns [cs] erased. *)
Definition without (cs : list string) (t : DataFrame) : DataFrame :=
  mkFrame (filter (fun c => c ∉ cs) (columns t)) (drop_cells cs <$> rows t).

(** The value returned by [mask_data]. *)
Definition masked (t : DataFrame) : DataFrame :=
  without ["year"]
    (mkFrame (columns t)
       (filter (fun r => from_2000b (cell r date_column) = true) (rows t))).

(** Every cell held by a row belongs to a column of the frame. *)
Definition well_formed (t : DataFrame) : bool :=
  forallb (fun r =>
             forallb (fun kv : string * value => bool_decide (kv.1 ∈ columns t))
                     (map_to_list (cells r)))
          (rows t).

(** How many columns of the frame are among those that [data_details]
    drops. *)
Definition pruned_present (t : DataFrame) : nat :=
  length (filter (fun c => c ∈ pruned_columns) (columns t)).

(** The claim that the returned tuple carries the table itself. *)
Definition returns_table_with_details (o : obj) : Prop :=
  exists r n m names, o = OTuple [OFrame r; OInt n; OInt m; OList names].

(** How [load_data] tells the failures of the read apart. *)
Inductive diagnostic_kind := NotFound | EmptyFile | Malformed | Unexpected.

Definition failure_kind (e : exn) : diagnostic_kind :=
  match exn_cls e with
  | FileNotFoundError => NotFound
  | EmptyDataError => EmptyFile
  | ParserError => Malformed
  | _ => Unexpected
  end.

Definition diagnostic (e : exn) : list fragment :=
  match failure_kind e with
  | NotFound => msg_not_found
  | EmptyFile => msg_empty
  | Malformed => msg_malformed
  | Unexpected => msg_unexpected e
  end.

(** ** Sample tables *)

Definition num (z : Z) : value := VNum (Qc_of_Z z).

Definition dec (n : Z) (d : positive) : value := VNum (Q2Qc (n # d)).

Definition row_of (l : Z) (kvs : list (string * value)) : Row :=
  mkRow l (list_to_map kvs).

(** Three approaches: one before 2000, one in 2000, one undated. *)
Definition approaches : DataFrame :=
  mkFrame ["Name"; "Close Approach Date"; "Equinox"]
    [ row_of 0 [("Name", num 3703080); ("Close Approach Date", VStr "1999-03-01");
                ("Equinox", VStr "J2000")];
      row_of 1 [("Name", num 3723955); ("Close Approach Date", VStr "2000-01-01");
                ("Equinox", VStr "J2000")];
      row_of 2 [("Name", num 2446862); ("Close Approach Date", VStr "unknown");
                ("Equinox", VStr "J2000")] ].


(** A table all of whose rows date from 2000 on. *)
Definition recent : DataFrame :=
  mkFrame ["Name"; "Close Approach Date"]
    [ row_of 0 [("Name", num 3703080); ("Close Approach Date", VStr "2000-01-01")];
      row_of 1 [("Name", num 3723955); ("Close Approach Date", VStr "2016-09-30")] ].

(** One observation with every column the script selects. *)
Definition observation : DataFrame :=
  mkFrame relevant_columns
    [ row_of 0
        [("Name", num 3703080); ("Close Approach Date", VStr "2000-01-01");
         ("Absolute Magnitude", dec 216 10);
         ("Miss Dist.(kilometers)", num 62753692); ("Orbit ID", num 17);
         ("Est Dia in KM(min)", dec 127 1000); ("Est Dia in KM(max)", dec 284 1000);
         ("Minimum Orbit Intersection", dec 25 1000);
         ("Miles per hour", dec 135692 10); ("Hazardous", VBool true);
         ("Orbiting Body", VStr "Earth"); ("Neo Reference ID", num 3703080);
         ("Equinox", VStr "J2000")] ].

Definition is_number (v : value) : bool :=
  match v with VNum _ => true | _ => false end.

Definition number_of (v : value) : Qc :=
  match v with VNum q => q | _ => 0%Qc end.

(** The sum of the numbers over how many they are. *)
Definition Qc_sum (qs : list Qc) : Qc := foldr Qcplus 0%Qc qs.

(** The arithmetic mean of rational numbers, without rounding. *)
Definition arithmetic_mean (qs : list Qc) : Qc :=
  (Qc_sum qs / Qc_of_Z (Z.of_nat (length qs)))%Qc.

(** A cell of a column of numbers: a number or a missing value. *)
Definition is_numeric (v : value) : bool :=
  match v with VNum _ | VNaN => true | _ => false end.

Definition entry (v : value) : option Qc :=
  match v with VNum q => Some q | _ => None end.

(** An entry is present and strictly above [m]. *)
Definition exceeds (m : Qc) (e : option Qc) : bool :=
  match e with Some q => bool_decide (m < q)%Qc | None => false end.

Definition count_above (m : Qc) (es : list (option Qc)) : nat :=
  length (filter (fun e => exceeds m e = true) es).

Definition diameter_min : string := "Est Dia in KM(min)".

Definition diameters (t : DataFrame) : list (option Qc) :=
  (fun row => entry (cell row diameter_min)) <$> rows t.

Definition magnitude (row : Row) : Qc := number_of (cell row "Absolute Magnitude").

Definition miss_distance (row : Row) : Qc :=
  number_of (cell row "Miss Dist.(kilometers)").

(** A series of numbers read off the rows by [g]. *)
Definition number_series (g : Row -> Qc) (rs : list Row) : list (Z * value) :=
  (fun r => (label r, VNum (g r))) <$> rs.



(** The orbit identifiers present in a table, row by row. *)
Definition orbit_ids (t : DataFrame) : list value :=
  filter (fun v => is_nan v = false) ((fun row => cell row "Orbit ID") <$> rows t).

Definition column_of (c : string) (vs : list value) : DataFrame :=
  mkFrame [c] (imap (fun i v => row_of (Z.of_nat i) [(c, v)]) vs).


(** The binary64 number that the decimal 0.7 denotes. *)
Definition seven_tenths : Qc := round64 (Q2Qc (7 # 10)).

(** Minimum diameters 0.7, 0.7, 0.7. *)
Definition equal_diameters : DataFrame :=
  column_of "Est Dia in KM(min)"
    [VNum seven_tenths; VNum seven_tenths; VNum seven_tenths].


(** Two approaches, the second without a date (an empty cell of the
    file). *)
Definition undated : DataFrame :=
  mkFrame ["Name"; "Close Approach Date"]
    [ row_of 0 [("Name", num 3703080); ("Close Approach Date", VStr "2000-01-01")];
      row_of 1 [("Name", num 3723955); ("Close Approach Date", VNaN)] ].

(** Orbit identifiers 5, 5, 7, 5, 7. *)
Definition five_orbits : DataFrame :=
  column_of "Orbit ID" [num 5; num 5; num 7; num 5; num 7].

(** Names A, B, C at miss distances 500, 100, 900. *)
Definition named_distances : DataFrame :=
  mkFrame ["Name"; "Miss Dist.(kilometers)"]
    [ row_of 0 [("Name", VStr "A"); ("Miss Dist.(kilometers)", num 500)];
      row_of 1 [("Name", VStr "B"); ("Miss Dist.(kilometers)", num 100)];
      row_of 2 [("Name", VStr "C"); ("Miss Dist.(kilometers)", num 900)] ].


(** An entry may come before another in a listing by decreasing count. *)
Definition count_ge (e e' : value * nat) : Prop := (e'.2 ≤ e.2)%nat.

(** What the library promises of the order of [value_counts]: the same
    entries, by decreasing count. *)
Definition descending (order : list (value * nat) -> list (value * nat)) : Prop :=
  (forall l, order l ≡ₚ l) /\ (forall l, StronglySorted count_ge (order l)).

(** * Further notions *)

Definition is_digit (c : ascii) : bool :=
  match digit_of c with Some _ => true | None => false end.

Fixpoint all_chars (p : ascii -> bool) (s : string) : bool :=
  match s with
  | EmptyString => true
  | String c rest => p c && all_chars p rest
  end.

Fixpoint count_char (c : ascii) (s : string) : nat :=
  match s with
  | EmptyString => O
  | String c' rest => ((if Ascii.eqb c' c then 1 else 0) + count_char c rest)%nat
  end.

(** The number a string of decimal digits denotes, continuing from
    [acc]. *)
Fixpoint decimal_value (acc : Z) (s : string) : Z :=
  match s with
  | EmptyString => acc
  | String c rest => decimal_value (10 * acc + default 0 (digit_of c)) rest
  end.

(** Three observations, the last two sharing the greatest magnitude and
    the least miss distance. *)
Definition tied_observations : DataFrame :=
  mkFrame ["Name"; "Absolute Magnitude"; "Miss Dist.(kilometers)"]
    [ row_of 4 [("Name", num 3703080); ("Absolute Magnitude", dec 216 10);
                ("Miss Dist.(kilometers)", num 62753692)];
      row_of 7 [("Name", num 3723955); ("Absolute Magnitude", dec 273 10);
                ("Miss Dist.(kilometers)", num 7622911)];
      row_of 9 [("Name", num 2446862); ("Absolute Magnitude", dec 273 10);
                ("Miss Dist.(kilometers)", num 7622911)] ].

(** A computation that only reads the store and only adds to the
    output. *)
Definition observer {A : Type} (m : M A) : Prop :=
  forall st, store (m st).2 = store st /\ output st `prefix_of` output (m st).2.

(** What [run_analysis_and_print] prints before it queries the table. *)
Definition header_lines (t : DataFrame) : list event :=
  [ Print [FText "Saving mock_asteroid_data.csv to mock_asteroid_data.csv"];
    Print [FText "Data shape: "; FInt (Z.of_nat (length (rows t))); FText " rows x ";
           FInt (Z.of_nat (length (columns t))); FText " columns"];
    Print [FText "Table Column Headers:"] ]
  ++ ((fun col => Print [FText "  "; FText col]) <$> columns t).

(** The failure raised when the name [plt] cannot be resolved. *)
Definition plt_missing : exn := Exn NameError "name 'plt' is not defined".

(** * Lemmas and theorems *)

(** ** Text and numbers *)


Lemma Qc_of_Z_le a b : (Qc_of_Z a ≤ Qc_of_Z b)%Qc <-> a <= b.
Proof. unfold Qcle, Qc_of_Z; simpl. by rewrite <- Zle_Qle. Qed.

Lemma extract_year_text s :
  exists y, extract_year (VStr s) = Ok y /\
            ge_scalar 2000 (year_cell y) = Ok (from_2000b (VStr s)).
Proof.
  unfold extract_year, from_2000b.
  destruct (split_on "-"%char s) as [|a [|b [|c [|? ?]]]]; try (by exists None).
  destruct (py_int a) as [y|]; [|by exists None].
  exists (Some y). split; [done|]. simpl. f_equal.
  apply bool_decide_ext, Qc_of_Z_le.
Qed.

Lemma extract_year_ok_text v y : extract_year v = Ok y -> exists s, v = VStr s.
Proof. destruct v; try discriminate. eauto. Qed.

Lemma series_apply_fmap {R A B : Type} (f : A -> result B) (lab : R -> Z)
    (g : R -> A) (h : R -> B) (rs : list R) :
  (forall r, r ∈ rs -> f (g r) = Ok (h r)) ->
  series_apply f ((fun r => (lab r, g r)) <$> rs) = Ok ((fun r => (lab r, h r)) <$> rs).
Proof.
  induction rs as [|r rs IH]; intros H; [done|].
  cbn. rewrite H by left. cbn. rewrite IH; [done|].
  intros r' Hr'. apply H. by right.
Qed.

Lemma series_apply_ok_inv {R A B : Type} (f : A -> result B) (lab : R -> Z)
    (g : R -> A) (rs : list R) ys :
  series_apply f ((fun r => (lab r, g r)) <$> rs) = Ok ys ->
  forall r, r ∈ rs -> exists b, f (g r) = Ok b.
Proof.
  revert ys. induction rs as [|r rs IH]; intros ys H r' Hr'.
  - by apply elem_of_nil in Hr'.
  - cbn in H. destruct (f (g r)) as [b|e] eqn:Hf; [|discriminate]. cbn in H.
    destruct (series_apply f _) as [ys'|e] eqn:Hs; [|discriminate].
    apply elem_of_cons in Hr' as [->|Hr']; [eauto|]. eapply IH; eauto.
Qed.

Lemma select_rows_fmap (f : Row -> bool) (rs : list Row) :
  select_rows rs (f <$> rs) = filter (fun r => f r = true) rs.
Proof.
  induction rs as [|r rs IH]; [done|].
  rewrite fmap_cons, filter_cons. cbn [select_rows]. rewrite IH.
  destruct (f r); by case_decide.
Qed.

Lemma zip_with_fmap_same {R A B} (k : R -> A -> B) (g : R -> A) (rs : list R) :
  zip_with k rs (g <$> rs) = (fun r => k r (g r)) <$> rs.
Proof. induction rs as [|r rs IH]; [done|]. cbn. by rewrite IH. Qed.

Lemma cell_set_cell c r v : cell (set_cell c r v) c = v.
Proof. unfold cell, set_cell; simpl. by rewrite lookup_insert_eq. Qed.

Lemma cell_set_cell_ne c c' r v : c ≠ c' -> cell (set_cell c r v) c' = cell r c'.
Proof. intros. unfold cell, set_cell; simpl. by rewrite lookup_insert_ne. Qed.

Lemma drop_set_cell c r v : drop_cells [c] (set_cell c r v) = drop_cells [c] r.
Proof. unfold drop_cells, set_cell; simpl. by rewrite delete_insert_eq. Qed.

Lemma year_in_with_year t : "year" ∈ columns (with_year t).
Proof. unfold with_year; simpl. case_decide; [done|]. set_solver. Qed.

Lemma without_year_with_year t : without ["year"] (with_year t) = without ["year"] t.
Proof.
  unfold without, with_year; simpl. f_equal.
  - case_decide; [done|]. rewrite filter_app. simpl.
    rewrite filter_cons. case_decide as Hn; [exfalso; apply Hn; set_solver|].
    by rewrite filter_nil, app_nil_r.
  - rewrite <- list_fmap_compose. apply list_fmap_ext. intros _ r _. simpl.
    apply drop_set_cell.
Qed.

Lemma filter_fmap_comm {A B : Type} (f : A -> B) (P : B -> Prop)
    `{!forall y, Decision (P y)} (l : list A) :
  filter P (f <$> l) = f <$> filter (fun x => P (f x)) l.
Proof.
  induction l as [|x l IH]; [done|].
  rewrite fmap_cons, !filter_cons, IH. by case_decide.
Qed.

Lemma getitem_in t c :
  c ∈ columns t -> getitem t c = Ok ((fun r => (label r, cell r c)) <$> rows t).
Proof. intros H. unfold getitem. by rewrite decide_True. Qed.

Lemma getitem_ok_inv t c s : getitem t c = Ok s -> c ∈ columns t.
Proof. unfold getitem. by case_decide. Qed.

Lemma year_of_text r :
  is_text (cell r date_column) = true ->
  exists y, extract_year (cell r date_column) = Ok y /\ year_of r = year_cell y /\
            ge_scalar 2000 (year_of r) = Ok (from_2000b (cell r date_column)).
Proof.
  unfold year_of. destruct (cell r date_column) as [s| | |]; try discriminate.
  intros _. destruct (extract_year_text s) as (y & Hy & Hge).
  exists y. by rewrite Hy.
Qed.

Lemma setitem_own t c (g : Row -> value) :
  setitem t c ((fun r => (label r, g r)) <$> rows t) =
  Ok (mkFrame (if decide (c ∈ columns t) then columns t else columns t ++ [c])
              ((fun r => set_cell c r (g r)) <$> rows t)).
Proof.
  unfold setitem, index. rewrite <- !list_fmap_compose.
  rewrite decide_True by done. do 2 f_equal.
  apply (zip_with_fmap_same (set_cell c) g).
Qed.

Lemma getitem_mask_own t (f : Row -> bool) :
  getitem_mask t ((fun r => (label r, f r)) <$> rows t) =
  Ok (mkFrame (columns t) (filter (fun r => f r = true) (rows t))).
Proof.
  unfold getitem_mask, index. rewrite <- !list_fmap_compose.
  rewrite decide_True by done. do 2 f_equal. apply select_rows_fmap.
Qed.

Lemma drop_columns_present ignore t c :
  c ∈ columns t -> drop_columns ignore t [c] = Ok (without [c] t).
Proof.
  intros H. unfold drop_columns. rewrite filter_cons, filter_nil.
  by rewrite decide_False by (intros Hn; by apply Hn).
Qed.

(** The outcome of [mask_data] on a frame whose date column holds text. *)
Lemma mask_data_eq st r t :
  store st !! r = Some t ->
  date_column ∈ columns t ->
  (forall row, row ∈ rows t -> is_text (cell row date_column) = true) ->
  mask_data r st =
    (Ok (length (store st)),
     mkState (<[r := with_year t]> (store st) ++ [masked t]) (output st)).
Proof.
  intros Hr Hcol Htext.
  assert (Hyears : series_apply extract_year
            ((fun r => (label r, cell r date_column)) <$> rows t) =
          Ok ((fun r => (label r,
                 match extract_year (cell r date_column) with
                 | Ok y => y | Err _ => None end)) <$> rows t)).
  { apply series_apply_fmap. intros row Hrow.
    destruct (year_of_text row (Htext row Hrow)) as (y & -> & _). done. }
  assert (Hmask : series_apply (ge_scalar 2000)
            ((fun r => (label r, cell r "year")) <$> rows (with_year t)) =
          Ok ((fun r => (label r, from_2000b (cell r date_column)))
                <$> rows (with_year t))).
  { apply series_apply_fmap. intros row Hrow. unfold with_year in Hrow; simpl in Hrow.
    apply list_elem_of_fmap in Hrow as (row0 & -> & Hrow0).
    rewrite cell_set_cell, cell_set_cell_ne by done.
    by destruct (year_of_text row0 (Htext row0 Hrow0)) as (y & _ & _ & ->). }
  unfold mask_data, mbind, M_bind, read_frame, lift. rewrite Hr.
  fold date_column. rewrite (getitem_in _ _ Hcol), Hyears.
  rewrite <- list_fmap_compose.
  rewrite (list_fmap_ext _ (fun r : Row => (label r, year_of r)) (rows t))
    by (intros _ row _; unfold year_of; simpl; by destruct (extract_year _)).
  rewrite setitem_own. fold (with_year t).
  unfold write_frame; cbn [store output].
  rewrite (getitem_in _ _ (year_in_with_year t)), Hmask, getitem_mask_own.
  rewrite drop_columns_present by apply year_in_with_year.
  unfold alloc; cbn [store output]. rewrite length_insert.
  do 4 f_equal. unfold masked, without, with_year; cbn [columns rows]. f_equal.
  - case_decide; [done|]. rewrite filter_app, filter_cons, filter_nil.
    rewrite decide_False by (intros Hn; apply Hn; set_solver).
    by rewrite app_nil_r.
  - rewrite filter_fmap_comm, <- !list_fmap_compose.
    erewrite list_filter_iff.
    + apply list_fmap_ext. intros _ row _. apply drop_set_cell.
    + intros row. simpl. by rewrite cell_set_cell_ne.
Qed.

Lemma mask_data_ok_inv st r r' st' :
  mask_data r st = (Ok r', st') ->
  exists t, store st !! r = Some t /\ date_column ∈ columns t /\
            forall row, row ∈ rows t -> is_text (cell row date_column) = true.
Proof.
  unfold mask_data, mbind, M_bind, read_frame, lift. fold date_column.
  destruct (store st !! r) as [t|] eqn:Hr; [|discriminate].
  destruct (getitem t date_column) as [dates|] eqn:Hd; [|discriminate].
  destruct (series_apply extract_year dates) as [years|] eqn:Hy; [|discriminate].
  intros _. exists t. split; [done|]. split; [by eapply getitem_ok_inv|].
  rewrite (getitem_in _ _ (getitem_ok_inv _ _ _ Hd)) in Hd. injection Hd as <-.
  intros row Hrow.
  destruct (series_apply_ok_inv _ _ _ _ _ Hy row Hrow) as [y Hrowy].
  by destruct (extract_year_ok_text _ _ Hrowy) as [s ->].
Qed.

Lemma drop_columns_ignore t cs : drop_columns true t cs = Ok (without cs t).
Proof. unfold drop_columns. by destruct (filter _ cs). Qed.

Lemma data_details_eq st r t :
  store st !! r = Some t ->
  data_details r st =
    (Ok (OTuple [OInt (Z.of_nat (length (rows t)));
                 OInt (Z.of_nat (length (columns (without pruned_columns t))));
                 OList (OStr <$> columns (without pruned_columns t))]),
     mkState (<[r := without pruned_columns t]> (store st)) (output st)).
Proof.
  intros Hr. unfold data_details, mbind, M_bind, read_frame, lift. rewrite Hr.
  rewrite drop_columns_ignore. unfold write_frame, shape, without; simpl.
  by rewrite length_fmap.
Qed.

Lemma cell_drop_cells cs r c : c ∉ cs -> cell (drop_cells cs r) c = cell r c.
Proof.
  intros Hc. unfold cell, drop_cells; simpl. f_equal.
  induction cs as [|c' cs IH]; [done|]. simpl.
  rewrite lookup_delete_ne by set_solver. apply IH. set_solver.
Qed.

Lemma index_without cs t : index (without cs t) = index t.
Proof. unfold index, without; simpl. by rewrite <- list_fmap_compose. Qed.

Lemma getitem_without cs t c : c ∉ cs -> getitem (without cs t) c = getitem t c.
Proof.
  intros Hc. unfold getitem, without; simpl.
  destruct (decide (c ∈ columns t)) as [Hin|Hin].
  - rewrite decide_True by (apply list_elem_of_filter; done).
    rewrite <- list_fmap_compose. f_equal. apply list_fmap_ext.
    intros _ row _. simpl. by rewrite cell_drop_cells.
  - rewrite decide_False; [done|]. intros [_ ?]%list_elem_of_filter. done.
Qed.

Lemma length_without cs t :
  (length (columns (without cs t)) +
   length (filter (fun c => c ∈ cs) (columns t)))%nat = length (columns t).
Proof.
  unfold without; simpl. induction (columns t) as [|c l IH]; [done|].
  rewrite !filter_cons. destruct (decide (c ∈ cs)).
  - rewrite decide_False by auto. simpl. lia.
  - rewrite decide_True by auto. simpl. lia.
Qed.

Lemma lookup_fresh {A} (l : list A) (i : nat) (x y : A) :
  (<[i := x]> l ++ [y]) !! length l = Some y.
Proof.
  rewrite lookup_app_r by (rewrite length_insert; lia).
  by rewrite length_insert, Nat.sub_diag.
Qed.

Lemma lookup_updated {A} (l : list A) (i : nat) (x y z : A) :
  l !! i = Some z -> (<[i := x]> l ++ [y]) !! i = Some x.
Proof.
  intros H. pose proof (lookup_lt_Some _ _ _ H).
  rewrite lookup_app_l by (rewrite length_insert; lia).
  by apply list_lookup_insert_eq.
Qed.

Lemma lookup_other {A} (l : list A) (i j : nat) (x y : A) :
  j ≠ i -> (j < length l)%nat -> (<[i := x]> l ++ [y]) !! j = l !! j.
Proof.
  intros Hne Hlt. rewrite lookup_app_l by (rewrite length_insert; lia).
  by apply list_lookup_insert_ne.
Qed.


Lemma masked_columns t :
  columns (masked t) = filter (fun c => c ≠ "year") (columns t).
Proof.
  unfold masked, without; simpl. apply list_filter_iff. intros c.
  by rewrite list_elem_of_singleton.
Qed.





Example mask_data_approaches :
  exists st', mask_data 0%nat (mkState [approaches] []) = (Ok 1%nat, st') /\
    (index <$> store st' !! 1%nat) = Some [1] /\
    (columns <$> store st' !! 1%nat) = Some ["Name"; "Close Approach Date"; "Equinox"].
Proof. eexists. split; [vm_compute; reflexivity|]. split; reflexivity. Qed.

Lemma filter_all {A : Type} (P : A -> Prop) `{!forall x, Decision (P x)} (l : list A) :
  (forall x, x ∈ l -> P x) -> filter P l = l.
Proof.
  induction l as [|x l IH]; intros Hall; [done|].
  rewrite filter_cons_True by (apply Hall; left). f_equal. apply IH.
  intros y Hy. apply Hall. by right.
Qed.

Lemma filter_twice {A : Type} (P : A -> Prop) `{!forall x, Decision (P x)} (l : list A) :
  filter P (filter P l) = filter P l.
Proof. apply filter_all. by intros x [? _]%list_elem_of_filter. Qed.



Lemma well_formed_lookup t row c :
  well_formed t = true -> row ∈ rows t -> c ∉ columns t -> cells row !! c = None.
Proof.
  unfold well_formed. rewrite forallb_forall. intros Hwf Hrow Hc.
  apply list_elem_of_In in Hrow. specialize (Hwf row Hrow).
  rewrite forallb_forall in Hwf.
  destruct (cells row !! c) as [v|] eqn:Hv; [|done].
  apply elem_of_map_to_list, list_elem_of_In in Hv.
  apply Hwf, bool_decide_eq_true in Hv. done.
Qed.








(** C4 (as amended).  [mask_data] returns a new object and leaves the
    rows and every column other than year of its argument as they were;
    [data_details] works in place: after the call the caller's table is
    the table without Orbiting Body, Neo Reference ID and Equinox, with
    the same rows and the same cells in every other column.  Neither
    touches any other object or prints anything. *)
Theorem filter_and_pruner_effects (st : State) (r : ref) (t : DataFrame) :
  store st !! r = Some t ->
  (forall r' st', mask_data r st = (Ok r', st') ->
     r' = length (store st) /\
     length (store st') = S (length (store st)) /\
     output st' = output st /\
     (forall r0, r0 ≠ r -> (r0 < length (store st))%nat ->
                 store st' !! r0 = store st !! r0) /\
     exists t1, store st' !! r = Some t1 /\
                without ["year"] t1 = without ["year"] t) /\
  (exists o,
     data_details r st =
       (Ok o, mkState (<[r := without pruned_columns t]> (store st)) (output st))) /\
  index (without pruned_columns t) = index t /\
  (forall c, c ∉ pruned_columns -> getitem (without pruned_columns t) c = getitem t c).
Proof.
  intros Hr. split; [|split; [|split]].
  - intros r' st' Hrun.
    destruct (mask_data_ok_inv _ _ _ _ Hrun) as (t0 & Hr0 & Hcol & Htext).
    assert (t0 = t) as -> by congruence.
    rewrite (mask_data_eq _ _ _ Hr Hcol Htext) in Hrun. injection Hrun as <- <-.
    cbn [store output]. split; [done|]. split.
    { rewrite length_app, length_insert. simpl. lia. }
    split; [done|]. split.
    { intros r0 Hne Hlt. by apply lookup_other. }
    exists (with_year t). split; [by eapply lookup_updated|].
    apply without_year_with_year.
  - eexists. by apply data_details_eq.
  - apply index_without.
  - intros c. apply getitem_without.
Qed.

Lemma filter_and_pruner_effects_witness :
  (forall r' st', mask_data 0%nat (mkState [approaches] []) = (Ok r', st') ->
     r' = 1%nat /\
     length (store st') = 2%nat /\
     output st' = [] /\
     (forall r0, r0 ≠ 0%nat -> (r0 < 1)%nat -> store st' !! r0 = [approaches] !! r0) /\
     exists t1, store st' !! 0%nat = Some t1 /\
                without ["year"] t1 = without ["year"] approaches) /\
  (exists o,
     data_details 0%nat (mkState [approaches] []) =
       (Ok o, mkState [without pruned_columns approaches] [])) /\
  index (without pruned_columns approaches) = index approaches /\
  (forall c, c ∉ pruned_columns ->
             getitem (without pruned_columns approaches) c = getitem approaches c).
Proof.
  apply (filter_and_pruner_effects (mkState [approaches] []) 0%nat approaches).
  reflexivity.
Defined.

(** C4 (as stated) fails: after [data_details] the caller's table has
    lost a column, and after [mask_data] it has gained one. *)
Lemma stages_modify_their_argument :
  (exists o st' t',
     data_details 0%nat (mkState [approaches] []) = (Ok o, st') /\
     store st' !! 0%nat = Some t' /\
     columns approaches = ["Name"; "Close Approach Date"; "Equinox"] /\
     columns t' = ["Name"; "Close Approach Date"] /\
     t' ≠ approaches) /\
  (exists r' st' t',
     mask_data 0%nat (mkState [approaches] []) = (Ok r', st') /\
     store st' !! 0%nat = Some t' /\
     columns t' = ["Name"; "Close Approach Date"; "Equinox"; "year"] /\
     t' ≠ approaches).
Proof.
  split.
  - eexists _, _, (without pruned_columns approaches).
    split; [vm_compute; reflexivity|]. split; [vm_compute; reflexivity|].
    split; [reflexivity|]. split; [reflexivity|].
    intros H. apply (f_equal columns) in H. vm_compute in H. discriminate H.
  - exists 1%nat, (mask_data 0%nat (mkState [approaches] [])).2, (with_year approaches).
    split; [vm_compute; reflexivity|]. split; [vm_compute; reflexivity|].
    split; [reflexivity|].
    intros H. apply (f_equal columns) in H. vm_compute in H. discriminate H.
Qed.

(** C6 (as amended).  [data_details] never fails on a table.  It removes
    Orbiting Body, Neo Reference ID and Equinox from the caller's table,
    whichever of them are present, keeping the rows and every other
    column; it returns the triple of the row count, the column count
    (the original count less the number of columns removed) and the
    remaining column names in their order.  The table itself is not
    part of the returned value. *)
Theorem data_details_prunes_in_place (st : State) (r : ref) (t : DataFrame) :
  store st !! r = Some t ->
  data_details r st =
    (Ok (OTuple [OInt (Z.of_nat (length (rows t)));
                 OInt (Z.of_nat (length (columns t)) - Z.of_nat (pruned_present t));
                 OList (OStr <$> filter (fun c => c ∉ pruned_columns) (columns t))]),
     mkState (<[r := without pruned_columns t]> (store st)) (output st)) /\
  columns (without pruned_columns t) =
    filter (fun c => c ∉ pruned_columns) (columns t) /\
  (forall c, c ∈ pruned_columns -> c ∉ columns (without pruned_columns t)) /\
  index (without pruned_columns t) = index t /\
  (forall c, c ∉ pruned_columns -> getitem (without pruned_columns t) c = getitem t c).
Proof.
  intros Hr. split; [|split; [done|split; [|split]]].
  - rewrite (data_details_eq _ _ _ Hr).
    pose proof (length_without pruned_columns t) as Hlen.
    replace (Z.of_nat (length (columns (without pruned_columns t))))
      with (Z.of_nat (length (columns t)) - Z.of_nat (pruned_present t));
      [done|unfold pruned_present; lia].
  - intros c Hc [Hn _]%list_elem_of_filter. done.
  - apply index_without.
  - intros c. apply getitem_without.
Qed.

Lemma data_details_prunes_in_place_witness :
  data_details 0%nat (mkState [approaches] []) =
    (Ok (OTuple [OInt 3; OInt 2; OList [OStr "Name"; OStr "Close Approach Date"]]),
     mkState [without pruned_columns approaches] []) /\
  columns (without pruned_columns approaches) = ["Name"; "Close Approach Date"].
Proof.
  destruct (data_details_prunes_in_place (mkState [approaches] []) 0%nat approaches)
    as (Hrun & Hcols & _).
  - reflexivity.
  - split; [exact Hrun | exact Hcols].
Defined.

(** C6 (as stated) fails: the value returned is a triple of two
    integers and a list, with no table in it. *)
Lemma data_details_returns_no_table :
  exists o st',
    data_details 0%nat (mkState [approaches] []) = (Ok o, st') /\
    o = OTuple [OInt 3; OInt 2; OList [OStr "Name"; OStr "Close Approach Date"]] /\
    ~ returns_table_with_details o.
Proof.
  eexists _, _. split; [vm_compute; reflexivity|]. split; [reflexivity|].
  intros (r & n & m & names & H). discriminate H.
Qed.

(** C2.  The module body fails at its first statement, whatever the
    names [pd], [np] and [plt] are bound to and whatever the files hold:
    the call of [load_data] lacks its argument.  No object is created
    and nothing is printed or drawn.  Moreover, in the module as
    shipped, without imports, [load_data] fails on every path because
    [pd] is not defined. *)
Theorem main_fails_before_loading :
  (forall lib env st,
     main lib env st =
       (Err (Exn TypeError
               "load_data() missing 1 required positional argument: 'filename'"),
        st)) /\
  (forall files path st,
     load_data (shipped files) path st =
       (Err (Exn NameError "name 'pd' is not defined"), st)).
Proof. split; reflexivity. Qed.

Lemma kinds_have_distinct_diagnostics e e' :
  failure_kind e ≠ failure_kind e' -> diagnostic e ≠ diagnostic e'.
Proof.
  unfold diagnostic.
  destruct (failure_kind e), (failure_kind e'); intros Hk H; try done;
    vm_compute in H; discriminate H.
Qed.

(** C9.  [load_data] fails in the module as it is: the module imports
    nothing, so the name [pd] is unbound.  The call of [pd.read_csv]
    raises [NameError]; the handler for [FileNotFoundError] does not
    match it, and naming the class of the next handler,
    [pd.errors.EmptyDataError], raises [NameError] again.  So on every
    path, whatever the file holds, the exception propagates: no table
    and no absent result is returned, and no diagnostic is printed. *)
Theorem load_data_propagates_name_error (env : Env) (path : string) (st : State) :
  pd_bound env = false ->
  load_data env path st = (Err (Exn NameError "name 'pd' is not defined"), st) /\
  catches FileNotFoundError (Exn NameError "name 'pd' is not defined") = false.
Proof.
  intros Hpd. split; [|reflexivity].
  unfold load_data, try_except, mbind, M_bind, lift. rewrite Hpd. reflexivity.
Qed.

Lemma load_data_propagates_name_error_witness :
  load_data (shipped (fun _ => Ok observation)) "nasa.csv" initial =
    (Err (Exn NameError "name 'pd' is not defined"), initial) /\
  load_data (shipped (fun path => Err (Exn FileNotFoundError path))) "nasa.csv" initial =
    (Err (Exn NameError "name 'pd' is not defined"), initial).
Proof.
  split.
  - apply (load_data_propagates_name_error
             (shipped (fun _ => Ok observation)) "nasa.csv" initial).
    reflexivity.
  - apply (load_data_propagates_name_error
             (shipped (fun path => Err (Exn FileNotFoundError path))) "nasa.csv" initial).
    reflexivity.
Defined.

(** X20.  With [pd] bound to the library, [load_data] returns the table
    when the read succeeds; when the read fails with an exception it
    prints one diagnostic and returns [None], the diagnostic telling a
    missing file, an empty file, a malformed file and any other failure
    apart.  Only a system-exiting exception, which is not an
    [Exception], propagates. *)
Theorem load_data_outcomes (env : Env) (path : string) (st : State) :
  pd_bound env = true ->
  match read_csv env path with
  | Ok t =>
      load_data env path st =
        (Ok (OFrame (length (store st))), mkState (store st ++ [t]) (output st))
  | Err e =>
      if catches Exception_ e then
        load_data env path st =
          (Ok ONone, mkState (store st) (output st ++ [Print (diagnostic e)]))
      else load_data env path st = (Err e, st)
  end /\
  (forall e e', failure_kind e ≠ failure_kind e' -> diagnostic e ≠ diagnostic e').
Proof.
  intros Hpd. split; [|apply kinds_have_distinct_diagnostics].
  unfold load_data, try_except, mbind, M_bind, lift. rewrite Hpd. cbn [global].
  destruct (read_csv env path) as [t|[c msg]]; [reflexivity|].
  destruct c; reflexivity.
Qed.

Lemma load_data_outcomes_witness :
  load_data (mkEnv true false false false
               (fun path => Err (Exn FileNotFoundError path)))
            "nasa.csv" initial =
    (Ok ONone, mkState [] [Print msg_not_found]).
Proof.
  destruct (load_data_outcomes
              (mkEnv true false false false
                 (fun path => Err (Exn FileNotFoundError path)))
              "nasa.csv" initial) as [Hrun _].
  - reflexivity.
  - exact Hrun.
Defined.

Lemma bind_ok_inv {A B : Type} (m : M A) (f : A -> M B) st b st2 :
  (m ≫= f) st = (Ok b, st2) ->
  exists a st1, m st = (Ok a, st1) /\ f a st1 = (Ok b, st2).
Proof.
  unfold mbind, M_bind. destruct (m st) as [[a|e] st1]; [eauto|discriminate].
Qed.

Lemma lift_ok_inv {A : Type} (x : result A) st a st1 :
  lift x st = (Ok a, st1) -> x = Ok a /\ st1 = st.
Proof. unfold lift. by intros [= -> ->]. Qed.

Lemma getitem_list_ok_inv t cs t' :
  getitem_list t cs = Ok t' ->
  t' = mkFrame cs (keep_cells cs <$> rows t) /\ forall c, c ∈ cs -> c ∈ columns t.
Proof.
  unfold getitem_list.
  destruct (filter _ cs) as [|c0 l] eqn:Hf; [|discriminate].
  intros [= <-]. split; [done|]. intros c Hc.
  destruct (decide (c ∈ columns t)) as [|Hn]; [done|].
  assert (c ∈ filter (fun c => c ∉ columns t) cs) as Hin by (by apply list_elem_of_filter).
  rewrite Hf in Hin. by apply elem_of_nil in Hin.
Qed.

Lemma as_frame_ok_inv o st r st1 :
  as_frame o st = (Ok r, st1) -> o = OFrame r /\ st1 = st.
Proof. destruct o; try discriminate. by intros [= -> ->]. Qed.

(** C3 (as amended).  Whenever the preparation of the loaded value
    succeeds, the table handed to the analysis and to the charts has
    exactly the thirteen selected columns, Orbiting Body, Neo Reference
    ID and Equinox among them; the loaded table must have had every one
    of the thirteen.  [data_details] takes no part in it. *)
Theorem report_receives_selected_columns (loaded : obj) (st : State)
    (r' : ref) (st' : State) :
  prepare loaded st = (Ok r', st') ->
  exists r t t',
    loaded = OFrame r /\ store st !! r = Some t /\
    (forall c, c ∈ relevant_columns -> c ∈ columns t) /\
    store st' !! r' = Some t' /\
    columns t' = relevant_columns /\
    (forall c, c ∈ pruned_columns -> c ∈ columns t') /\
    (shape t').2 = 13%nat.
Proof.
  unfold prepare. intros Hrun.
  apply bind_ok_inv in Hrun as (r & st0 & [-> ->]%as_frame_ok_inv & Hrun).
  apply bind_ok_inv in Hrun as (r1 & st1 & Hmask & Hrun).
  destruct (mask_data_ok_inv _ _ _ _ Hmask) as (t & Hr & Hcol & Htext).
  rewrite (mask_data_eq _ _ _ Hr Hcol Htext) in Hmask. injection Hmask as <- <-.
  apply bind_ok_inv in Hrun as (t1 & st2 & Hread & Hrun).
  unfold read_frame in Hread; cbn [store] in Hread.
  rewrite lookup_fresh in Hread. injection Hread as <- <-.
  apply bind_ok_inv in Hrun as (t' & st3 & [Hsel ->]%lift_ok_inv & Hrun).
  apply getitem_list_ok_inv in Hsel as [-> Hall].
  unfold alloc in Hrun; cbn [store output] in Hrun. injection Hrun as <- <-.
  exists r, t, (mkFrame relevant_columns (keep_cells relevant_columns <$> rows (masked t))).
  split; [done|]. split; [done|]. split.
  { intros c Hc. specialize (Hall c Hc). rewrite masked_columns in Hall.
    by apply list_elem_of_filter in Hall as [_ ?]. }
  split.
  { cbn [store]. rewrite lookup_app_r by lia. by rewrite Nat.sub_diag. }
  split; [done|]. split; [|done].
  intros c Hc. cbn [columns]. unfold pruned_columns, relevant_columns in *.
  repeat (apply elem_of_cons in Hc as [->|Hc]; [set_solver|]).
  by apply elem_of_nil in Hc.
Qed.

Lemma report_receives_selected_columns_witness :
  exists t',
    store (prepare (OFrame 0%nat) (mkState [observation] [])).2 !! 2%nat = Some t' /\
    columns t' = relevant_columns /\
    (forall c, c ∈ pruned_columns -> c ∈ columns t').
Proof.
  destruct (report_receives_selected_columns (OFrame 0%nat) (mkState [observation] [])
              2%nat (prepare (OFrame 0%nat) (mkState [observation] [])).2)
    as (r & t & t' & _ & _ & _ & Ht' & Hcols & Hpruned & _).
  - vm_compute. reflexivity.
  - exists t'. split; [exact Ht'|]. split; [exact Hcols | exact Hpruned].
Defined.

(** C3 (as stated) fails: on a loaded observation the table passed on
    still has the three columns, and the analysis prints each of them
    among the column headers. *)
Lemma prepared_table_is_not_pruned :
  exists r' st' t',
    prepare (OFrame 0%nat) (mkState [observation] []) = (Ok r', st') /\
    store st' !! r' = Some t' /\
    "Orbiting Body" ∈ columns t' /\
    "Neo Reference ID" ∈ columns t' /\
    "Equinox" ∈ columns t' /\
    Print [FText "  "; FText "Orbiting Body"]
      ∈ output (run_analysis_and_print reference r' st').2 /\
    Print [FText "  "; FText "Neo Reference ID"]
      ∈ output (run_analysis_and_print reference r' st').2 /\
    Print [FText "  "; FText "Equinox"]
      ∈ output (run_analysis_and_print reference r' st').2.
Proof.
  exists 2%nat, (prepare (OFrame 0%nat) (mkState [observation] [])).2.
  eexists. split; [vm_compute; reflexivity|]. split; [vm_compute; reflexivity|].
  split; [repeat constructor|]. split; [repeat constructor|].
  split; [repeat constructor|].
  assert (Hout : exists l, output (run_analysis_and_print reference 2%nat
              (prepare (OFrame 0%nat) (mkState [observation] [])).2).2 = l /\
            Print [FText "  "; FText "Orbiting Body"] ∈ l /\
            Print [FText "  "; FText "Neo Reference ID"] ∈ l /\
            Print [FText "  "; FText "Equinox"] ∈ l).
  { eexists. split; [vm_compute; reflexivity|]. repeat split; repeat constructor. }
  destruct Hout as (l & -> & ? & ? & ?). done.
Qed.

Lemma entries_of_numeric {R : Type} (g : R -> value) (rs : list R) :
  (forall r, r ∈ rs -> is_numeric (g r) = true) ->
  entries_of (g <$> rs) = Ok ((fun r => entry (g r)) <$> rs).
Proof.
  induction rs as [|r rs IH]; intros Hnum; [done|].
  cbn [fmap list_fmap entries_of].
  assert (is_numeric (g r) = true) as Hr by (apply Hnum; left).
  rewrite IH by (intros r' Hr'; apply Hnum; by right).
  by destruct (g r).
Qed.

Lemma gt_value_numeric m v :
  is_numeric v = true -> gt_value (VNum m) v = Ok (exceeds m (entry v)).
Proof. by destruct v. Qed.

Lemma gt_value_missing v : is_numeric v = true -> gt_value VNaN v = Ok false.
Proof. by destruct v. Qed.

Lemma count_above_present m (es : list (option Qc)) :
  count_above m es = length (filter (fun q => (m < q)%Qc) (omap id es)).
Proof.
  unfold count_above. induction es as [|[q|] es IH]; [done| |];
    rewrite filter_cons; simpl.
  - rewrite filter_cons. fold (omap (M := list) id es).
    destruct (decide (m < q)%Qc) as [Hlt|Hlt].
    + rewrite decide_True by (by apply bool_decide_eq_true). simpl. by rewrite IH.
    + rewrite decide_False by (by rewrite bool_decide_eq_true). done.
  - done.
Qed.

Lemma length_filter_fmap {A B : Type} (f : A -> B) (P : B -> Prop)
    `{!forall y, Decision (P y)} (l : list A) :
  length (filter P (f <$> l)) = length (filter (fun x => P (f x)) l).
Proof. by rewrite filter_fmap_comm, length_fmap. Qed.

Lemma min_max_diameter_numeric (lib : Library) (t : DataFrame) :
  diameter_min ∈ columns t ->
  (forall row, row ∈ rows t -> is_numeric (cell row diameter_min) = true) ->
  min_max_diameter lib t =
    Ok (count_above (mean_of lib (diameters t)) (diameters t)).
Proof.
  intros Hcol Hnum.
  unfold min_max_diameter. fold diameter_min. rewrite (getitem_in _ _ Hcol).
  cbn [mbind result_bind]. rewrite <- list_fmap_compose.
  change (snd ∘ _) with (fun r : Row => cell r diameter_min).
  unfold series_mean. rewrite entries_of_numeric by done.
  cbn [mbind result_bind]. fold (diameters t).
  set (m := mean_of lib (diameters t)).
  destruct (omap id (diameters t)) as [|q qs] eqn:Hpresent; cbn [mbind result_bind].
  - rewrite (series_apply_fmap _ label (fun r => cell r diameter_min)
               (fun _ => false))
      by (intros row Hrow; by apply gt_value_missing, Hnum).
    cbn [mbind result_bind]. rewrite getitem_mask_own. cbn [mbind result_bind].
    unfold shape; cbn [rows fst]. f_equal.
    rewrite count_above_present, Hpresent.
    generalize (rows t) as rs. induction rs as [|row rs IH]; [done|].
    by rewrite filter_cons, decide_False.
  - rewrite (series_apply_fmap _ label (fun r => cell r diameter_min)
               (fun r => exceeds m (entry (cell r diameter_min))))
      by (intros row Hrow; by apply gt_value_numeric, Hnum).
    cbn [mbind result_bind]. rewrite getitem_mask_own. cbn [mbind result_bind].
    unfold shape; cbn [rows fst]. f_equal.
    unfold count_above, diameters. by rewrite length_filter_fmap.
Qed.




(** *** Counting by value: order of first encounter *)









(** *** Counting by value: sorting by decreasing count *)

Lemma insert_desc_perm e l : insert_desc e l ≡ₚ e :: l.
Proof.
  induction l as [|e' l IH]; [done|]. cbn [insert_desc].
  destruct (e'.2 <=? e.2)%nat; [done|]. rewrite IH. apply Permutation_swap.
Qed.

Lemma sort_desc_perm l : sort_desc l ≡ₚ l.
Proof.
  induction l as [|e l IH]; [done|]. cbn [sort_desc foldr].
  rewrite insert_desc_perm. by f_equiv.
Qed.

Lemma insert_desc_sorted e l :
  StronglySorted count_ge l -> StronglySorted count_ge (insert_desc e l).
Proof.
  induction 1 as [|e' l Hs IH Hall]; [repeat constructor|].
  cbn [insert_desc]. destruct (e'.2 <=? e.2)%nat eqn:Hle.
  - apply Nat.leb_le in Hle. constructor; [by constructor|].
    constructor; [done|]. eapply Forall_impl; [exact Hall|].
    unfold count_ge. intros; simpl in *; lia.
  - apply Nat.leb_gt in Hle. constructor; [done|].
    rewrite insert_desc_perm. constructor; [unfold count_ge; lia|done].
Qed.

Lemma sort_desc_sorted l : StronglySorted count_ge (sort_desc l).
Proof.
  induction l as [|e l IH]; [constructor|]. by apply insert_desc_sorted.
Qed.

Lemma sort_desc_descending : descending sort_desc.
Proof. split; [apply sort_desc_perm|apply sort_desc_sorted]. Qed.







Lemma descending_nil order : descending order -> order [] = [].
Proof. intros [Hperm _]. apply Permutation_nil_r, Hperm. Qed.




Example value_counts_ties :
  value_counts reference
    [num 7; num 5; VNaN; num 9; num 5; num 7; num 9; num 9] =
  [(num 9, 3%nat); (num 7, 2%nat); (num 5, 2%nat)].
Proof. vm_compute. reflexivity. Qed.

(** ** Stages 4 and 5: the extremal row *)

Section first_extremum.
(** [beats b q]: the candidate [q] replaces the champion [b]. *)
Variable beats : Qc -> Qc -> Prop.
Variable better : Qc -> Qc -> bool.
Hypothesis better_spec : forall q b, better q b = true <-> beats b q.
Hypothesis beats_trans : forall a b c, beats a b -> beats b c -> beats a c.
Hypothesis stays_then_beaten : forall a b c, ~ beats a b -> beats a c -> beats b c.

Variable g : Row -> Qc.

Lemma arg_best_champion (rs : list Row) (l0 : Z) (q0 : Qc) :
  exists l q,
    arg_best better (Some (l0, q0)) (number_series g rs)
      = Ok (Some (l, q)) /\
    ((l = l0 /\ q = q0 /\ forall r, r ∈ rs -> ~ beats q0 (g r)) \/
     (exists pre row post,
        rs = pre ++ row :: post /\ l = label row /\ q = g row /\
        beats q0 (g row) /\
        (forall r, r ∈ pre -> beats (g r) (g row)) /\
        (forall r, r ∈ post -> ~ beats (g row) (g r)))).
Proof.
  revert l0 q0. induction rs as [|r rs IH]; intros l0 q0.
  - exists l0, q0. split; [done|]. left. repeat split.
    intros r Hr. by apply elem_of_nil in Hr.
  - cbn [number_series fmap list_fmap arg_best as_number mbind result_bind].
    fold (number_series g rs). destruct (better (g r) q0) eqn:Hb.
    + apply better_spec in Hb.
      destruct (IH (label r) (g r)) as (l & q & -> & [(-> & -> & Hrest)|Hlater]).
      * exists (label r), (g r). split; [done|]. right.
        exists [], r, rs. repeat split; try done.
        intros r' Hr'. by apply elem_of_nil in Hr'.
      * destruct Hlater as (pre & row & post & -> & -> & -> & Hrow & Hpre & Hpost).
        exists (label row), (g row). split; [done|]. right.
        exists (r :: pre), row, post. repeat split; try done.
        -- by eapply beats_trans.
        -- intros r' [->|Hr']%elem_of_cons; auto.
    + assert (~ beats q0 (g r)) as Hnb
        by (intros Hyes%better_spec; congruence).
      destruct (IH l0 q0) as (l & q & -> & [(-> & -> & Hrest)|Hlater]).
      * exists l0, q0. split; [done|]. left. repeat split.
        intros r' [->|Hr']%elem_of_cons; auto.
      * destruct Hlater as (pre & row & post & -> & -> & -> & Hrow & Hpre & Hpost).
        exists (label row), (g row). split; [done|]. right.
        exists (r :: pre), row, post. repeat split; try done.
        intros r' [->|Hr']%elem_of_cons; [|auto].
        by eapply stays_then_beaten.
Qed.

(** On a non-empty series of numbers the pass ends on the first row
    that no later row beats and that beats every earlier row. *)
Lemma arg_best_first (rs : list Row) :
  rs ≠ [] ->
  exists pre row post,
    rs = pre ++ row :: post /\
    arg_best better None (number_series g rs)
      = Ok (Some (label row, g row)) /\
    (forall r, r ∈ pre -> beats (g r) (g row)) /\
    (forall r, r ∈ post -> ~ beats (g row) (g r)).
Proof.
  destruct rs as [|r rs]; [done|]. intros _.
  cbn [number_series fmap list_fmap arg_best as_number mbind result_bind].
  fold (number_series g rs).
  destruct (arg_best_champion rs (label r) (g r))
    as (l & q & -> & [(-> & -> & Hrest)|Hlater]).
  - exists [], r, rs. repeat split; try done.
    intros r' Hr'. by apply elem_of_nil in Hr'.
  - destruct Hlater as (pre & row & post & -> & -> & -> & Hrow & Hpre & Hpost).
    exists (r :: pre), row, post. repeat split; try done.
    intros r' [->|Hr']%elem_of_cons; auto.
Qed.
End first_extremum.

Lemma numeric_series t c :
  (forall row, row ∈ rows t -> is_number (cell row c) = true) ->
  (fun r => (label r, cell r c)) <$> rows t =
  (fun r => (label r, VNum (number_of (cell r c)))) <$> rows t.
Proof.
  intros Hnum. apply list_fmap_ext. intros _ row Hrow%list_elem_of_lookup_2.
  specialize (Hnum row Hrow). by destruct (cell row c).
Qed.

Lemma filter_label_unique (rs : list Row) (row : Row) :
  NoDup (label <$> rs) -> row ∈ rs ->
  filter (fun r => label r = label row) rs = [row].
Proof.
  induction rs as [|r rs IH]; intros Hnd Hrow; [by apply elem_of_nil in Hrow|].
  rewrite fmap_cons in Hnd. apply NoDup_cons in Hnd as [Hr Hnd].
  apply elem_of_cons in Hrow as [->|Hrow].
  - rewrite filter_cons_True by done. f_equal.
    destruct (filter _ rs) as [|r' l] eqn:Hf; [done|]. exfalso.
    assert (r' ∈ filter (fun r0 => label r0 = label r) rs) as Hin
      by (rewrite Hf; left).
    apply list_elem_of_filter in Hin as [Heq Hin]. apply Hr. rewrite <- Heq.
    apply list_elem_of_fmap. eauto.
  - rewrite filter_cons_False; [by apply IH|].
    intros Heq. apply Hr. rewrite Heq. apply list_elem_of_fmap. eauto.
Qed.

Lemma loc_unique t row c :
  c ∈ columns t -> NoDup (index t) -> row ∈ rows t ->
  loc t (label row) c = Ok [cell row c].
Proof.
  intros Hc Hnd Hrow. unfold loc. rewrite decide_True by done.
  by rewrite filter_label_unique.
Qed.

Lemma truncate_integer n : truncate (Qc_of_Z n) = n.
Proof. unfold truncate, Qc_of_Z; simpl. apply Z.quot_1_r. Qed.

(** [max_absolute_magnitude] settles on the first row of greatest
    magnitude, and answers with [int] of its Name cell. *)
Lemma max_absolute_magnitude_first_maximum (t : DataFrame) :
  "Name" ∈ columns t -> "Absolute Magnitude" ∈ columns t ->
  NoDup (index t) -> rows t ≠ [] ->
  (forall row, row ∈ rows t -> is_number (cell row "Absolute Magnitude") = true) ->
  exists pre row post,
    rows t = pre ++ row :: post /\
    (forall r, r ∈ pre -> (magnitude r < magnitude row)%Qc) /\
    (forall r, r ∈ post -> (magnitude r ≤ magnitude row)%Qc) /\
    max_absolute_magnitude t =
      (name ← int_of_value (cell row "Name"); Ok (name, magnitude row)).
Proof.
  intros Hname Hmag Hnd Hne Hnum.
  destruct (arg_best_first (fun b q => (b < q)%Qc)
              (fun q b => bool_decide (b < q)%Qc)
              (ltac:(intros q b; apply bool_decide_eq_true))
              (ltac:(intros a b c; apply Qclt_trans))
              (ltac:(intros a b c Hab Hac; apply Qcnot_lt_le in Hab;
                     by eapply Qcle_lt_trans))
              magnitude (rows t) Hne)
    as (pre & row & post & Hrows & Hbest & Hpre & Hpost).
  exists pre, row, post. split; [done|]. split; [done|]. split.
  { intros r Hr. by apply Qcnot_lt_le, Hpost. }
  assert (row ∈ rows t) as Hrow by (rewrite Hrows; set_solver).
  unfold max_absolute_magnitude. rewrite (getitem_in _ _ Hmag).
  cbn [mbind result_bind]. unfold idxmax. rewrite numeric_series by done.
  unfold magnitude, number_series in Hbest. rewrite Hbest. cbn [mbind result_bind].
  rewrite !loc_unique by done. cbn [mbind result_bind scalar].
  destruct (int_of_value (cell row "Name")) as [n|e]; [|done].
  cbn [mbind result_bind]. unfold magnitude.
  specialize (Hnum row Hrow). by destruct (cell row "Absolute Magnitude").
Qed.

(** [closest_to_earth] settles on the first row of least miss distance,
    and answers with [int] of its Name cell. *)
Lemma closest_to_earth_first_minimum (t : DataFrame) :
  "Name" ∈ columns t -> "Miss Dist.(kilometers)" ∈ columns t ->
  NoDup (index t) -> rows t ≠ [] ->
  (forall row, row ∈ rows t -> is_number (cell row "Miss Dist.(kilometers)") = true) ->
  exists pre row post,
    rows t = pre ++ row :: post /\
    (forall r, r ∈ pre -> (miss_distance row < miss_distance r)%Qc) /\
    (forall r, r ∈ post -> (miss_distance row ≤ miss_distance r)%Qc) /\
    closest_to_earth t = int_of_value (cell row "Name").
Proof.
  intros Hname Hdist Hnd Hne Hnum.
  destruct (arg_best_first (fun b q => (q < b)%Qc)
              (fun q b => bool_decide (q < b)%Qc)
              (ltac:(intros q b; apply bool_decide_eq_true))
              (ltac:(intros a b c Hab Hbc; exact (Qclt_trans _ _ _ Hbc Hab)))
              (ltac:(intros a b c Hab Hac; apply Qcnot_lt_le in Hab;
                     exact (Qclt_le_trans _ _ _ Hac Hab)))
              miss_distance (rows t) Hne)
    as (pre & row & post & Hrows & Hbest & Hpre & Hpost).
  exists pre, row, post. split; [done|]. split; [done|]. split.
  { intros r Hr. by apply Qcnot_lt_le, Hpost. }
  assert (row ∈ rows t) as Hrow by (rewrite Hrows; set_solver).
  unfold closest_to_earth. rewrite (getitem_in _ _ Hdist).
  cbn [mbind result_bind]. unfold idxmin. rewrite numeric_series by done.
  unfold miss_distance, number_series in Hbest. rewrite Hbest. cbn [mbind result_bind].
  rewrite loc_unique by done. done.
Qed.

(** C5.  On the miss distances 500, 100, 900 with the names A, B, C the
    row of least distance is the one named B, but [closest_to_earth]
    does not return B: it applies [int] to the name and fails with
    [ValueError]. *)
Theorem closest_to_earth_rejects_text_names :
  (exists row,
     rows named_distances !! 1%nat = Some row /\
     cell row "Name" = VStr "B" /\
     forall r, r ∈ rows named_distances -> (miss_distance row ≤ miss_distance r)%Qc) /\
  closest_to_earth named_distances =
    Err (Exn ValueError "invalid literal for int() with base 10").
Proof.
  split; [|vm_compute; reflexivity].
  eexists. split; [reflexivity|]. split; [vm_compute; reflexivity|].
  intros r Hr.
  repeat (apply elem_of_cons in Hr as [->|Hr]; [by vm_compute|]).
  by apply elem_of_nil in Hr.
Qed.

Example closest_to_earth_numeric_names :
  closest_to_earth
    (mkFrame ["Name"; "Miss Dist.(kilometers)"]
       [ row_of 0 [("Name", num 11); ("Miss Dist.(kilometers)", num 500)];
         row_of 1 [("Name", num 22); ("Miss Dist.(kilometers)", num 100)];
         row_of 2 [("Name", num 33); ("Miss Dist.(kilometers)", num 100)] ])
  = Ok 22.
Proof. vm_compute. reflexivity. Qed.

(** ** Year extraction on sample dates *)

Example extract_year_2000 : extract_year (VStr "2000-01-01") = Ok (Some 2000).
Proof. reflexivity. Qed.

Example extract_year_two_parts : extract_year (VStr "2000-01") = Ok None.
Proof. reflexivity. Qed.

Example extract_year_letters : extract_year (VStr "20a0-01-01") = Ok None.
Proof. reflexivity. Qed.

Example extract_year_leading_minus : extract_year (VStr "-2000-01-01") = Ok None.
Proof. reflexivity. Qed.

Example extract_year_padded : extract_year (VStr " +2_001-01-01") = Ok (Some 2001).
Proof. reflexivity. Qed.

Example extract_year_missing_date :
  extract_year VNaN = Err (Exn AttributeError "'float' object has no attribute 'split'").
Proof. reflexivity. Qed.

(** * Further properties *)

(** ** Year extraction *)

Lemma split_on_length sep s : length (split_on sep s) = S (count_char sep s).
Proof.
  induction s as [|c s IH]; [done|]. cbn [split_on count_char].
  destruct (Ascii.eqb c sep).
  - cbn. by rewrite IH.
  - destruct (split_on sep s); [discriminate IH|]. cbn in *. done.
Qed.

Lemma split_on_no_sep sep s : count_char sep s = 0%nat -> split_on sep s = [s].
Proof.
  induction s as [|c s IH]; [done|]. cbn [split_on count_char].
  destruct (Ascii.eqb c sep); [discriminate|]. intros H. by rewrite IH.
Qed.

Lemma split_on_app sep a b :
  count_char sep a = 0%nat ->
  split_on sep (a ++ String sep b) = a :: split_on sep b.
Proof.
  induction a as [|c a IH]; simpl.
  - by rewrite Ascii.eqb_refl.
  - destruct (Ascii.eqb c sep); [discriminate|]. intros H. by rewrite IH.
Qed.

Lemma digit_not_space c : is_digit c = true -> is_space c = false.
Proof.
  unfold is_digit, digit_of, is_space.
  destruct ((48 <=? nat_of_ascii c)%nat && (nat_of_ascii c <=? 57)%nat) eqn:Hd;
    [|discriminate].
  intros _. apply andb_true_iff in Hd as [H1%Nat.leb_le H2%Nat.leb_le].
  repeat (apply orb_false_iff; split).
  - apply andb_false_iff. right. apply Nat.leb_gt. lia.
  - apply andb_false_iff. right. apply Nat.leb_gt. lia.
  - apply Nat.eqb_neq. lia.
  - apply Nat.eqb_neq. lia.
Qed.

Lemma digit_not_hyphen c : is_digit c = true -> Ascii.eqb c "-"%char = false.
Proof.
  intros Hd. destruct (Ascii.eqb c "-"%char) eqn:He; [|done].
  apply Ascii.eqb_eq in He as ->. discriminate Hd.
Qed.

Lemma digits_no_hyphen s : all_chars is_digit s = true -> count_char "-"%char s = 0%nat.
Proof.
  induction s as [|c s IH]; [done|]. cbn [all_chars count_char].
  intros [Hc Hs]%andb_true_iff. by rewrite digit_not_hyphen, IH.
Qed.

Lemma lstrip_digits c s : is_digit c = true -> lstrip (String c s) = String c s.
Proof. intros Hc. cbn [lstrip]. by rewrite digit_not_space. Qed.

Lemma rstrip_digits s : all_chars is_digit s = true -> rstrip s = s.
Proof.
  induction s as [|c s IH]; [done|]. cbn [all_chars rstrip].
  intros [Hc Hs]%andb_true_iff. rewrite IH by done.
  destruct s; [by rewrite digit_not_space|done].
Qed.

Lemma parse_digits_value prev acc s :
  all_chars is_digit s = true -> (s ≠ EmptyString \/ prev = true) ->
  parse_digits prev acc s = Some (decimal_value acc s).
Proof.
  revert prev acc. induction s as [|c s IH]; intros prev acc Hall Hne.
  - destruct Hne as [?| ->]; done.
  - cbn [all_chars] in Hall. apply andb_true_iff in Hall as [Hc Hs].
    cbn [parse_digits decimal_value]. unfold is_digit in Hc.
    destruct (digit_of c) as [d|]; [|discriminate]. cbn [default].
    apply IH; [done|by right].
Qed.

Lemma count_digits_all s :
  all_chars is_digit s = true -> count_digits s = String.length s.
Proof.
  induction s as [|c s IH]; [done|]. cbn [all_chars count_digits String.length].
  intros [Hc Hs]%andb_true_iff. rewrite IH by done. unfold is_digit in Hc.
  by destruct (digit_of c).
Qed.

Lemma py_int_digits s :
  all_chars is_digit s = true -> s ≠ EmptyString ->
  py_int s =
    if (String.length s <=? max_str_digits)%nat then Some (decimal_value 0 s)
    else None.
Proof.
  intros Hall Hne. unfold py_int. rewrite rstrip_digits by done.
  destruct s as [|c s]; [done|].
  pose proof (count_digits_all _ Hall) as Hcount.
  cbn [all_chars] in Hall. apply andb_true_iff in Hall as [Hc Hs].
  rewrite lstrip_digits by done. cbn zeta. rewrite Hcount.
  destruct (Nat.leb_spec (String.length (String c s)) max_str_digits) as [Hle|Hgt].
  - rewrite (proj2 (Nat.ltb_ge _ _)) by done.
    assert (parse_digits false 0 (String c s) = Some (decimal_value 0 (String c s)))
      as Hparse by (apply parse_digits_value; [by cbn; rewrite Hc|by left]).
    destruct c as [[] [] [] [] [] [] [] []]; try discriminate Hc; exact Hparse.
  - by rewrite (proj2 (Nat.ltb_lt _ _)) by done.
Qed.

(** X1.  On a date made of a non-empty string of decimal digits, a
    hyphen, and two further parts without hyphens, [extract_year]
    returns the number the digits denote, provided there are no more
    digits than the interpreter converts (4300); beyond that it returns
    [None]. *)
Theorem extract_year_reads_the_year (y m d : string) :
  all_chars is_digit y = true -> y ≠ EmptyString ->
  count_char "-"%char m = 0%nat -> count_char "-"%char d = 0%nat ->
  extract_year (VStr (y ++ String "-"%char (m ++ String "-"%char d)))
    = Ok (if (String.length y <=? max_str_digits)%nat
          then Some (decimal_value 0 y) else None).
Proof.
  intros Hy Hne Hm Hd. unfold extract_year.
  rewrite split_on_app by (by apply digits_no_hyphen).
  rewrite split_on_app by done. rewrite split_on_no_sep by done.
  rewrite py_int_digits by done.
  by destruct (String.length y <=? max_str_digits)%nat.
Qed.

Lemma extract_year_reads_the_year_witness :
  extract_year (VStr ("2016" ++ String "-"%char ("09" ++ String "-"%char "30")))
    = Ok (Some (decimal_value 0 "2016")) /\
  decimal_value 0 "2016" = 2016.
Proof.
  split; [|reflexivity].
  apply (extract_year_reads_the_year "2016" "09" "30");
    [reflexivity|discriminate|reflexivity|reflexivity].
Defined.

(** X2.  A text date that does not hold exactly two hyphens has no
    year: [extract_year] returns [None], and does not raise. *)
Theorem extract_year_needs_two_hyphens (s : string) :
  count_char "-"%char s ≠ 2%nat -> extract_year (VStr s) = Ok None.
Proof.
  intros Hn. unfold extract_year.
  pose proof (split_on_length "-"%char s) as Hlen.
  destruct (split_on "-"%char s) as [|a [|b [|c [|? ?]]]]; try done.
  cbn in Hlen. lia.
Qed.

Lemma extract_year_needs_two_hyphens_witness :
  extract_year (VStr "2016-09-30-12") = Ok None.
Proof.
  apply (extract_year_needs_two_hyphens "2016-09-30-12"). cbn. lia.
Defined.

(** ** The filter: failures and invariants *)

Lemma series_apply_extract_year_err (rs : list Row) (e : exn) :
  series_apply extract_year ((fun r => (label r, cell r date_column)) <$> rs) = Err e ->
  exn_cls e = AttributeError /\
  exists row, row ∈ rs /\ is_text (cell row date_column) = false.
Proof.
  induction rs as [|r rs IH]; [discriminate|].
  cbn [fmap list_fmap series_apply].
  destruct (extract_year (cell r date_column)) as [y|e'] eqn:Hy; cbn [mbind result_bind].
  - destruct (series_apply extract_year _) as [ys|e'] eqn:Hs; [discriminate|].
    intros [= ->]. destruct (IH eq_refl) as (Hcls & row & Hrow & Htext).
    split; [done|]. exists row. split; [by right|done].
  - intros [= ->]. destruct (cell r date_column) as [s| | |] eqn:Hc.
    + destruct (extract_year_text s) as (y & Hy' & _). congruence.
    + cbn in Hy. injection Hy as <-. split; [done|]. exists r.
      split; [by left|by rewrite Hc].
    + cbn in Hy. injection Hy as <-. split; [done|]. exists r.
      split; [by left|by rewrite Hc].
    + cbn in Hy. injection Hy as <-. split; [done|]. exists r.
      split; [by left|by rewrite Hc].
Qed.

(** X3.  When [mask_data] fails it has changed nothing: the caller's
    table has no year column added and nothing is allocated.  On a table
    without the Close Approach Date column the failure is a [KeyError]
    naming it; otherwise it is an [AttributeError], and some date cell
    is not text. *)
Theorem mask_data_fails_cleanly (st : State) (r : ref) (t : DataFrame)
    (e : exn) (st' : State) :
  store st !! r = Some t ->
  mask_data r st = (Err e, st') ->
  st' = st /\
  (((date_column ∉ columns t) /\ e = Exn KeyError date_column) \/
   (date_column ∈ columns t /\ exn_cls e = AttributeError /\
    exists row, row ∈ rows t /\ is_text (cell row date_column) = false)).
Proof.
  intros Hr Hrun.
  destruct (decide (date_column ∈ columns t)) as [Hcol|Hcol].
  - destruct (series_apply extract_year
                ((fun r => (label r, cell r date_column)) <$> rows t))
      as [ys|e'] eqn:Hys.
    + exfalso.
      assert (forall row, row ∈ rows t -> is_text (cell row date_column) = true)
        as Htext.
      { intros row Hrow.
        destruct (series_apply_ok_inv _ _ _ _ _ Hys row Hrow) as [y Hy].
        by destruct (extract_year_ok_text _ _ Hy) as [s ->]. }
      by rewrite (mask_data_eq _ _ _ Hr Hcol Htext) in Hrun.
    + unfold mask_data, mbind, M_bind, read_frame, lift in Hrun.
      fold date_column in Hrun.
      rewrite Hr, (getitem_in _ _ Hcol), Hys in Hrun. injection Hrun as <- <-.
      split; [done|]. right. split; [done|].
      by apply series_apply_extract_year_err.
  - unfold mask_data, mbind, M_bind, read_frame, lift in Hrun.
    fold date_column in Hrun. unfold getitem in Hrun.
    rewrite Hr, decide_False in Hrun by done. injection Hrun as <- <-.
    split; [done|]. by left.
Qed.

Lemma mask_data_fails_cleanly_witness :
  (mask_data 0%nat
     (mkState [mkFrame ["Name"; "Close Approach Date"]
                 [row_of 0 [("Name", num 3703080);
                            ("Close Approach Date", VStr "2000-01-01")];
                  row_of 1 [("Name", num 3723955)]]] [])).2
  = mkState [mkFrame ["Name"; "Close Approach Date"]
               [row_of 0 [("Name", num 3703080);
                          ("Close Approach Date", VStr "2000-01-01")];
                row_of 1 [("Name", num 3723955)]]] [].
Proof.
  set (t := mkFrame ["Name"; "Close Approach Date"]
               [row_of 0 [("Name", num 3703080);
                          ("Close Approach Date", VStr "2000-01-01")];
                row_of 1 [("Name", num 3723955)]]).
  destruct (mask_data_fails_cleanly (mkState [t] []) 0%nat t
              (Exn AttributeError "'float' object has no attribute 'split'")
              (mask_data 0%nat (mkState [t] [])).2) as [Hsame _].
  - reflexivity.
  - vm_compute. reflexivity.
  - exact Hsame.
Defined.

(** X19.  A date cell that is not text (a missing date, a number) makes
    [mask_data] fail with [AttributeError], wherever the cell stands in
    the column and whatever the other dates are; the caller's table is
    left as it was. *)
Theorem mask_data_needs_text_dates (st : State) (r : ref) (t : DataFrame)
    (row : Row) :
  store st !! r = Some t ->
  date_column ∈ columns t ->
  row ∈ rows t ->
  is_text (cell row date_column) = false ->
  exists e, mask_data r st = (Err e, st) /\ exn_cls e = AttributeError.
Proof.
  intros Hr Hcol Hrow Htext.
  destruct (series_apply extract_year
              ((fun r => (label r, cell r date_column)) <$> rows t))
    as [ys|e] eqn:Hys.
  - destruct (series_apply_ok_inv _ _ _ _ _ Hys row Hrow) as [y Hy].
    destruct (extract_year_ok_text _ _ Hy) as [s' Hs']. rewrite Hs' in Htext.
    discriminate Htext.
  - exists e. split; [|by eapply series_apply_extract_year_err].
    unfold mask_data, mbind, M_bind, read_frame, lift. fold date_column.
    by rewrite Hr, (getitem_in _ _ Hcol), Hys.
Qed.

Lemma mask_data_needs_text_dates_witness :
  exists e,
    mask_data 0%nat (mkState [undated] []) = (Err e, mkState [undated] []) /\
    exn_cls e = AttributeError.
Proof.
  apply (mask_data_needs_text_dates (mkState [undated] []) 0%nat undated
           (row_of 1 [("Name", num 3723955); ("Close Approach Date", VNaN)])).
  - reflexivity.
  - repeat constructor.
  - repeat constructor.
  - reflexivity.
Defined.

Lemma well_formed_spec t :
  well_formed t = true <->
  forall row c v, row ∈ rows t -> cells row !! c = Some v -> c ∈ columns t.
Proof.
  unfold well_formed. rewrite forallb_forall. split.
  - intros Hwf row c v Hrow%list_elem_of_In Hv. specialize (Hwf row Hrow).
    rewrite forallb_forall in Hwf.
    apply elem_of_map_to_list, list_elem_of_In in Hv.
    by apply Hwf, bool_decide_eq_true in Hv.
  - intros Hwf row Hrow%list_elem_of_In. apply forallb_forall.
    intros [c v] Hcv%list_elem_of_In%elem_of_map_to_list.
    apply bool_decide_eq_true. eauto.
Qed.

Lemma lookup_drop_cells cs r c :
  cells (drop_cells cs r) !! c = if decide (c ∈ cs) then None else cells r !! c.
Proof.
  unfold drop_cells; cbn [cells]. induction cs as [|c' cs IH]; [done|].
  cbn [foldr]. destruct (decide (c = c')) as [->|Hne].
  - rewrite lookup_delete_eq. by rewrite decide_True by left.
  - rewrite lookup_delete_ne by done. rewrite IH.
    destruct (decide (c ∈ cs)) as [Hin|Hin].
    + by rewrite decide_True by (by right).
    + rewrite decide_False; [done|]. by intros [?|?]%elem_of_cons.
Qed.

Lemma well_formed_without cs t :
  well_formed t = true -> well_formed (without cs t) = true.
Proof.
  rewrite !well_formed_spec. intros Hwf row c v Hrow Hv.
  unfold without in *; cbn [rows columns] in *.
  apply list_elem_of_fmap in Hrow as (row0 & -> & Hrow0).
  rewrite lookup_drop_cells in Hv. case_decide; [done|].
  apply list_elem_of_filter. eauto.
Qed.

Lemma well_formed_rows cols rs rs' :
  (forall row, row ∈ rs' -> row ∈ rs) ->
  well_formed (mkFrame cols rs) = true -> well_formed (mkFrame cols rs') = true.
Proof.
  rewrite !well_formed_spec. cbn [rows columns]. intros Hsub Hwf row c v Hrow.
  apply Hwf. auto.
Qed.

Lemma well_formed_masked t : well_formed t = true -> well_formed (masked t) = true.
Proof.
  intros Hwf. unfold masked. apply well_formed_without.
  destruct t as [cols rs]. eapply well_formed_rows; [|exact Hwf].
  cbn [rows]. by intros row [_ ?]%list_elem_of_filter.
Qed.

Lemma index_masked_sublist t : index (masked t) `sublist_of` index t.
Proof.
  unfold masked. rewrite index_without. unfold index; cbn [rows].
  apply fmap_sublist, sublist_filter.
Qed.

(** X4.  The table returned by [mask_data] keeps the index labels of
    the surviving rows: its index is a sublist of the input's, so unique
    labels stay unique, and it has no more rows than the input.  A
    well-formed input gives a well-formed result. *)
Theorem mask_data_keeps_labels (st : State) (r r' : ref) (st' : State)
    (t : DataFrame) :
  store st !! r = Some t ->
  mask_data r st = (Ok r', st') ->
  exists t',
    store st' !! r' = Some t' /\
    index t' `sublist_of` index t /\
    (NoDup (index t) -> NoDup (index t')) /\
    (length (rows t') ≤ length (rows t))%nat /\
    (well_formed t = true -> well_formed t' = true).
Proof.
  intros Hr Hrun.
  destruct (mask_data_ok_inv _ _ _ _ Hrun) as (t0 & Hr0 & Hcol & Htext).
  assert (t0 = t) as -> by congruence.
  rewrite (mask_data_eq _ _ _ Hr Hcol Htext) in Hrun. injection Hrun as <- <-.
  exists (masked t). split; [apply lookup_fresh|].
  pose proof (index_masked_sublist t) as Hsub.
  split; [done|]. split; [intros Hnd; by eapply sublist_NoDup|]. split.
  - apply sublist_length in Hsub. unfold index in Hsub.
    by rewrite !length_fmap in Hsub.
  - apply well_formed_masked.
Qed.

Lemma mask_data_keeps_labels_witness :
  exists t',
    store (mask_data 0%nat (mkState [approaches] [])).2 !! 1%nat = Some t' /\
    index t' `sublist_of` index approaches /\
    index t' = [1] /\
    well_formed t' = true.
Proof.
  destruct (mask_data_keeps_labels (mkState [approaches] []) 0%nat 1%nat
              (mask_data 0%nat (mkState [approaches] [])).2 approaches)
    as (t' & Ht' & Hsub & _ & _ & Hwf).
  - reflexivity.
  - vm_compute. reflexivity.
  - exists t'. split; [exact Ht'|]. split; [exact Hsub|]. split.
    + vm_compute in Ht'. injection Ht' as <-. reflexivity.
    + apply Hwf. vm_compute. reflexivity.
Defined.

(** ** The pruner: repetition, no-op and exchange with the filter *)

Lemma drop_cells_eq (r r' : Row) :
  label r = label r' -> (forall c, cells r !! c = cells r' !! c) -> r = r'.
Proof.
  destruct r as [l m], r' as [l' m']; cbn. intros -> H. f_equal. by apply map_eq.
Qed.

Lemma drop_cells_same cs r : drop_cells cs (drop_cells cs r) = drop_cells cs r.
Proof.
  apply drop_cells_eq; [done|]. intros c. rewrite !lookup_drop_cells.
  by case_decide.
Qed.

Lemma drop_cells_comm cs cs' r :
  drop_cells cs (drop_cells cs' r) = drop_cells cs' (drop_cells cs r).
Proof.
  apply drop_cells_eq; [done|]. intros c. rewrite !lookup_drop_cells.
  by repeat case_decide.
Qed.

Lemma drop_cells_none cs r :
  (forall c, c ∈ cs -> cells r !! c = None) -> drop_cells cs r = r.
Proof.
  intros H. apply drop_cells_eq; [done|]. intros c. rewrite lookup_drop_cells.
  case_decide; [by rewrite H|done].
Qed.

Lemma without_twice cs t : without cs (without cs t) = without cs t.
Proof.
  unfold without; cbn [columns rows]. f_equal; [apply filter_twice|].
  rewrite <- list_fmap_compose. apply list_fmap_ext. intros _ row _.
  apply drop_cells_same.
Qed.

Lemma without_absent cs t :
  well_formed t = true -> (forall c, c ∈ cs -> c ∉ columns t) -> without cs t = t.
Proof.
  intros Hwf Habs. destruct t as [cols rs]. unfold without; cbn [columns rows] in *.
  f_equal.
  - apply filter_all. intros c Hc Hin. by apply (Habs c).
  - rewrite <- (list_fmap_id rs) at 2. apply list_fmap_ext.
    intros _ row Hrow%list_elem_of_lookup_2. apply drop_cells_none.
    intros c Hc. eapply well_formed_lookup; [exact Hwf|done|]. by apply Habs.
Qed.

Lemma filter_comm {A : Type} (P Q : A -> Prop) `{!forall x, Decision (P x)}
    `{!forall x, Decision (Q x)} (l : list A) :
  filter P (filter Q l) = filter Q (filter P l).
Proof.
  induction l as [|x l IH]; [done|].
  rewrite !(filter_cons _ x). destruct (decide (P x)), (decide (Q x));
    rewrite ?filter_cons_True, ?filter_cons_False by done; by rewrite IH.
Qed.

Lemma masked_without cs t :
  date_column ∉ cs -> masked (without cs t) = without cs (masked t).
Proof.
  intros Hd. unfold masked, without; cbn [columns rows]. f_equal.
  - apply filter_comm.
  - rewrite filter_fmap_comm, <- !list_fmap_compose.
    erewrite (list_filter_iff (fun row => from_2000b (cell (drop_cells cs row) _) = true)).
    + apply list_fmap_ext. intros _ row _. apply drop_cells_comm.
    + intros row. cbn. by rewrite cell_drop_cells.
Qed.

(** X5.  [data_details] can be repeated: a second call on the same
    table returns the same triple and leaves the table as the first call
    left it. *)
Theorem data_details_twice (st : State) (r : ref) (o : obj) (st1 : State) :
  data_details r st = (Ok o, st1) ->
  data_details r st1 = (Ok o, st1).
Proof.
  intros Hrun.
  destruct (store st !! r) as [t|] eqn:Hr.
  - rewrite (data_details_eq _ _ _ Hr) in Hrun. injection Hrun as <- <-.
    erewrite data_details_eq.
    2:{ cbn [store]. apply list_lookup_insert_eq. by eapply lookup_lt_Some. }
    rewrite without_twice. cbn [store output]. rewrite list_insert_insert_eq.
    unfold without; cbn [rows]. by rewrite length_fmap.
  - unfold data_details, mbind, M_bind, read_frame in Hrun. by rewrite Hr in Hrun.
Qed.

Lemma data_details_twice_witness :
  data_details 0%nat (data_details 0%nat (mkState [approaches] [])).2
  = (Ok (OTuple [OInt 3; OInt 2; OList [OStr "Name"; OStr "Close Approach Date"]]),
     (data_details 0%nat (mkState [approaches] [])).2).
Proof.
  apply (data_details_twice (mkState [approaches] []) 0%nat).
  vm_compute. reflexivity.
Defined.

(** X6.  On a well-formed table that has none of the columns Orbiting
    Body, Neo Reference ID and Equinox, [data_details] changes nothing
    and reports the table's own shape and column names. *)
Theorem data_details_nothing_to_drop (st : State) (r : ref) (t : DataFrame) :
  store st !! r = Some t ->
  well_formed t = true ->
  (forall c, c ∈ pruned_columns -> c ∉ columns t) ->
  data_details r st =
    (Ok (OTuple [OInt (Z.of_nat (length (rows t)));
                 OInt (Z.of_nat (length (columns t)));
                 OList (OStr <$> columns t)]),
     st).
Proof.
  intros Hr Hwf Habs. rewrite (data_details_eq _ _ _ Hr).
  rewrite (without_absent _ _ Hwf Habs), list_insert_id by done.
  by destruct st.
Qed.

Lemma data_details_nothing_to_drop_witness :
  data_details 0%nat (mkState [recent] []) =
    (Ok (OTuple [OInt 2; OInt 2; OList [OStr "Name"; OStr "Close Approach Date"]]),
     mkState [recent] []).
Proof.
  apply (data_details_nothing_to_drop (mkState [recent] []) 0%nat recent).
  - reflexivity.
  - vm_compute. reflexivity.
  - intros c Hc Hin.
    repeat (apply elem_of_cons in Hc as [->|Hc];
            [repeat (apply elem_of_cons in Hin as [Hin|Hin]; [discriminate|]);
             by apply elem_of_nil in Hin|]).
    by apply elem_of_nil in Hc.
Defined.

(** X7.  The filter and the pruner can be exchanged: pruning the
    caller's table and then filtering it gives the same table as
    filtering first and pruning the result. *)
Theorem filter_and_pruner_commute (st : State) (r : ref) (t : DataFrame) :
  store st !! r = Some t ->
  date_column ∈ columns t ->
  (forall row, row ∈ rows t -> is_text (cell row date_column) = true) ->
  exists result,
    (exists o st1 st2,
       data_details r st = (Ok o, st1) /\
       mask_data r st1 = (Ok (length (store st)), st2) /\
       store st2 !! length (store st) = Some result) /\
    (exists st1 o st2,
       mask_data r st = (Ok (length (store st)), st1) /\
       data_details (length (store st)) st1 = (Ok o, st2) /\
       store st2 !! length (store st) = Some result).
Proof.
  intros Hr Hcol Htext.
  assert (date_column ∉ pruned_columns) as Hd.
  { intros Hin. repeat (apply elem_of_cons in Hin as [Hin|Hin]; [discriminate|]).
    by apply elem_of_nil in Hin. }
  pose proof (lookup_lt_Some _ _ _ Hr) as Hlt.
  exists (without pruned_columns (masked t)). split.
  - eexists _, _, _. split; [by apply data_details_eq|]. split.
    + rewrite <- (length_insert (store st) r (without pruned_columns t)).
      apply mask_data_eq.
      * cbn [store]. by apply list_lookup_insert_eq.
      * unfold without; cbn [columns]. by apply list_elem_of_filter.
      * intros row Hrow. unfold without in Hrow; cbn [rows] in Hrow.
        apply list_elem_of_fmap in Hrow as (row0 & -> & Hrow0).
        rewrite cell_drop_cells by done. auto.
    + cbn [store]. rewrite masked_without by done.
      rewrite <- (length_insert (store st) r (without pruned_columns t)).
      apply lookup_fresh.
  - eexists _, _, _. split; [by apply mask_data_eq|]. split.
    + apply data_details_eq. apply lookup_fresh.
    + cbn [store]. apply list_lookup_insert_eq.
      rewrite length_app, length_insert. cbn. lia.
Qed.

Lemma filter_and_pruner_commute_witness :
  exists result,
    (exists o st1 st2,
       data_details 0%nat (mkState [approaches] []) = (Ok o, st1) /\
       mask_data 0%nat st1 = (Ok 1%nat, st2) /\
       store st2 !! 1%nat = Some result) /\
    (exists st1 o st2,
       mask_data 0%nat (mkState [approaches] []) = (Ok 1%nat, st1) /\
       data_details 1%nat st1 = (Ok o, st2) /\
       store st2 !! 1%nat = Some result).
Proof.
  apply (filter_and_pruner_commute (mkState [approaches] []) 0%nat approaches).
  - reflexivity.
  - repeat constructor.
  - intros row Hrow.
    repeat (apply elem_of_cons in Hrow as [->|Hrow]; [reflexivity|]).
    by apply elem_of_nil in Hrow.
Defined.

(** ** The aggregate queries: edge cases and bounds *)

(** X8.  On a table without rows that has the columns they read,
    [max_absolute_magnitude] and [closest_to_earth] raise [ValueError],
    while [common_orbit] returns an empty listing, whatever routine the
    library sorts with, and [min_max_diameter] returns 0. *)
Theorem aggregates_on_empty_table (lib : Library) (t : DataFrame) :
  descending (sort_counts lib) ->
  rows t = [] ->
  "Absolute Magnitude" ∈ columns t ->
  "Miss Dist.(kilometers)" ∈ columns t ->
  "Orbit ID" ∈ columns t ->
  "Est Dia in KM(min)" ∈ columns t ->
  max_absolute_magnitude t = Err no_extremum /\
  closest_to_earth t = Err no_extremum /\
  common_orbit lib t = Ok [] /\
  min_max_diameter lib t = Ok 0%nat.
Proof.
  intros Hdesc Hrows Hmag Hdist Horbit Hdia.
  unfold max_absolute_magnitude, closest_to_earth, common_orbit, min_max_diameter.
  rewrite (getitem_in _ _ Hmag), (getitem_in _ _ Hdist), (getitem_in _ _ Horbit),
    (getitem_in _ _ Hdia).
  unfold getitem_mask, index, value_counts. rewrite Hrows.
  cbn. by rewrite (descending_nil _ Hdesc).
Qed.

Lemma aggregates_on_empty_table_witness :
  max_absolute_magnitude (mkFrame relevant_columns []) = Err no_extremum /\
  closest_to_earth (mkFrame relevant_columns []) = Err no_extremum /\
  common_orbit reference (mkFrame relevant_columns []) = Ok [] /\
  min_max_diameter reference (mkFrame relevant_columns []) = Ok 0%nat.
Proof.
  apply (aggregates_on_empty_table reference (mkFrame relevant_columns []));
    [exact sort_desc_descending|reflexivity|repeat constructor..].
Defined.

(** X9.  On a non-empty table with unique index labels, numbers in the
    Absolute Magnitude column and integers in the Name column,
    [max_absolute_magnitude] returns the name and the magnitude of the
    first row whose magnitude no other row exceeds. *)
Theorem max_absolute_magnitude_integer_names (t : DataFrame) :
  "Name" ∈ columns t -> "Absolute Magnitude" ∈ columns t ->
  NoDup (index t) -> rows t ≠ [] ->
  (forall row, row ∈ rows t -> is_number (cell row "Absolute Magnitude") = true) ->
  (forall row, row ∈ rows t -> exists n, cell row "Name" = VNum (Qc_of_Z n)) ->
  exists pre row post n,
    rows t = pre ++ row :: post /\
    cell row "Name" = VNum (Qc_of_Z n) /\
    (forall r, r ∈ pre -> (magnitude r < magnitude row)%Qc) /\
    (forall r, r ∈ post -> (magnitude r ≤ magnitude row)%Qc) /\
    max_absolute_magnitude t = Ok (n, magnitude row).
Proof.
  intros Hname Hmag Hnd Hne Hnum Hint.
  destruct (max_absolute_magnitude_first_maximum t Hname Hmag Hnd Hne Hnum)
    as (pre & row & post & Hrows & Hpre & Hpost & Hrun).
  assert (row ∈ rows t) as Hrow by (rewrite Hrows; set_solver).
  destruct (Hint row Hrow) as [n Hn]. exists pre, row, post, n.
  repeat (split; [done|]). rewrite Hrun, Hn. cbn. by rewrite truncate_integer.
Qed.

Lemma max_absolute_magnitude_integer_names_witness :
  exists pre row post n,
    rows tied_observations = pre ++ row :: post /\
    cell row "Name" = VNum (Qc_of_Z n) /\
    (forall r, r ∈ pre -> (magnitude r < magnitude row)%Qc) /\
    (forall r, r ∈ post -> (magnitude r ≤ magnitude row)%Qc) /\
    max_absolute_magnitude tied_observations = Ok (n, magnitude row).
Proof.
  apply (max_absolute_magnitude_integer_names tied_observations).
  - repeat constructor.
  - repeat constructor.
  - apply (bool_decide_unpack _). vm_compute. exact I.
  - discriminate.
  - intros row Hrow.
    repeat (apply elem_of_cons in Hrow as [->|Hrow]; [reflexivity|]).
    by apply elem_of_nil in Hrow.
  - intros row Hrow.
    repeat (apply elem_of_cons in Hrow as [->|Hrow]; [eexists; reflexivity|]).
    by apply elem_of_nil in Hrow.
Defined.

Example max_absolute_magnitude_tie :
  max_absolute_magnitude tied_observations = Ok (3723955, Q2Qc (273 # 10)).
Proof. vm_compute. reflexivity. Qed.

(** X10.  On a non-empty table with unique index labels, numbers in the
    Miss Dist.(kilometers) column and integers in the Name column,
    [closest_to_earth] returns the name of the first row whose miss
    distance no other row falls below. *)
Theorem closest_to_earth_integer_names (t : DataFrame) :
  "Name" ∈ columns t -> "Miss Dist.(kilometers)" ∈ columns t ->
  NoDup (index t) -> rows t ≠ [] ->
  (forall row, row ∈ rows t -> is_number (cell row "Miss Dist.(kilometers)") = true) ->
  (forall row, row ∈ rows t -> exists n, cell row "Name" = VNum (Qc_of_Z n)) ->
  exists pre row post n,
    rows t = pre ++ row :: post /\
    cell row "Name" = VNum (Qc_of_Z n) /\
    (forall r, r ∈ pre -> (miss_distance row < miss_distance r)%Qc) /\
    (forall r, r ∈ post -> (miss_distance row ≤ miss_distance r)%Qc) /\
    closest_to_earth t = Ok n.
Proof.
  intros Hname Hdist Hnd Hne Hnum Hint.
  destruct (closest_to_earth_first_minimum t Hname Hdist Hnd Hne Hnum)
    as (pre & row & post & Hrows & Hpre & Hpost & Hrun).
  assert (row ∈ rows t) as Hrow by (rewrite Hrows; set_solver).
  destruct (Hint row Hrow) as [n Hn]. exists pre, row, post, n.
  repeat (split; [done|]). rewrite Hrun, Hn. cbn. by rewrite truncate_integer.
Qed.

Lemma closest_to_earth_integer_names_witness :
  exists pre row post n,
    rows tied_observations = pre ++ row :: post /\
    cell row "Name" = VNum (Qc_of_Z n) /\
    (forall r, r ∈ pre -> (miss_distance row < miss_distance r)%Qc) /\
    (forall r, r ∈ post -> (miss_distance row ≤ miss_distance r)%Qc) /\
    closest_to_earth tied_observations = Ok n.
Proof.
  apply (closest_to_earth_integer_names tied_observations).
  - repeat constructor.
  - repeat constructor.
  - apply (bool_decide_unpack _). vm_compute. exact I.
  - discriminate.
  - intros row Hrow.
    repeat (apply elem_of_cons in Hrow as [->|Hrow]; [reflexivity|]).
    by apply elem_of_nil in Hrow.
  - intros row Hrow.
    repeat (apply elem_of_cons in Hrow as [->|Hrow]; [eexists; reflexivity|]).
    by apply elem_of_nil in Hrow.
Defined.

Example closest_to_earth_tie : closest_to_earth tied_observations = Ok 3723955.
Proof. vm_compute. reflexivity. Qed.

Lemma bump_total x acc : sum_list ((bump x acc).*2) = S (sum_list (acc.*2)).
Proof.
  induction acc as [|[k n] acc IH]; [done|]. cbn [bump].
  destruct (decide (x = k)); cbn; [done|]. rewrite IH. lia.
Qed.

Lemma group_count_total l : sum_list ((group_count l).*2) = length l.
Proof.
  unfold group_count. rewrite <- (Nat.add_0_l (length l)).
  change 0%nat with (sum_list ((@nil (value * nat)).*2)).
  generalize (@nil (value * nat)) as acc.
  induction l as [|x l IH]; intros acc; cbn [foldl length]; [lia|].
  rewrite IH, bump_total. lia.
Qed.

Lemma bump_positive x acc :
  Forall (fun e : value * nat => (0 < e.2)%nat) acc ->
  Forall (fun e : value * nat => (0 < e.2)%nat) (bump x acc).
Proof.
  induction 1 as [|[k n] acc Hk Hacc IH]; cbn [bump].
  - repeat constructor.
  - destruct (decide (x = k)); constructor; cbn in *; try lia; done.
Qed.

Lemma group_count_positive l :
  Forall (fun e : value * nat => (0 < e.2)%nat) (group_count l).
Proof.
  unfold group_count.
  assert (Forall (fun e : value * nat => (0 < e.2)%nat) []) as Hacc by constructor.
  revert Hacc. generalize (@nil (value * nat)) as acc.
  induction l as [|x l IH]; intros acc Hacc; cbn [foldl]; [done|].
  by apply IH, bump_positive.
Qed.

(** X11.  Whatever routine the library sorts with, the counts that
    [common_orbit] lists are all positive and add up to the number of
    rows that have an orbit identifier, which is at most the number of
    rows. *)
Theorem common_orbit_counts_add_up (lib : Library) (t : DataFrame) :
  descending (sort_counts lib) ->
  "Orbit ID" ∈ columns t ->
  exists vc,
    common_orbit lib t = Ok vc /\
    sum_list (vc.*2) = length (orbit_ids t) /\
    Forall (fun e : value * nat => (0 < e.2)%nat) vc /\
    (length (orbit_ids t) ≤ length (rows t))%nat.
Proof.
  intros [Hperm _] Hcol. exists (sort_counts lib (group_count (orbit_ids t))).
  split; [|split; [|split]].
  - unfold common_orbit. rewrite (getitem_in _ _ Hcol). cbn [mbind result_bind].
    unfold value_counts, orbit_ids. by rewrite <- list_fmap_compose.
  - rewrite Hperm. apply group_count_total.
  - rewrite Hperm. apply group_count_positive.
  - unfold orbit_ids. etrans; [apply length_filter|]. by rewrite length_fmap.
Qed.

Lemma common_orbit_counts_add_up_witness :
  exists vc,
    common_orbit reference five_orbits = Ok vc /\
    sum_list (vc.*2) = length (orbit_ids five_orbits) /\
    Forall (fun e : value * nat => (0 < e.2)%nat) vc /\
    (length (orbit_ids five_orbits) ≤ length (rows five_orbits))%nat.
Proof.
  apply (common_orbit_counts_add_up reference five_orbits).
  - exact sort_desc_descending.
  - repeat constructor.
Defined.

Lemma Qc_of_nat_succ (k : nat) :
  Qc_of_Z (Z.of_nat (S k)) = (1 + Qc_of_Z (Z.of_nat k))%Qc.
Proof. by rewrite Nat2Z.inj_succ, <- Z.add_1_l, Z2Qc_inj_add, Z2Qc_inj_1. Qed.

Lemma Qc_sum_above_weak (m : Qc) (qs : list Qc) :
  (forall q, q ∈ qs -> (m < q)%Qc) ->
  (Qc_of_Z (Z.of_nat (length qs)) * m ≤ Qc_sum qs)%Qc.
Proof.
  induction qs as [|q qs IH]; intros Hall.
  - change (Qc_of_Z 0 * m ≤ 0)%Qc. rewrite Z2Qc_inj_0, Qcmult_0_l. apply Qcle_refl.
  - cbn [length Qc_sum foldr]. fold (Qc_sum qs).
    rewrite Qc_of_nat_succ, Qcmult_plus_distr_l, Qcmult_1_l.
    eapply Qcle_trans.
    + apply Qcplus_le_mono_r, Qclt_le_weak, Hall. by left.
    + apply Qcplus_le_mono_l, IH. intros q' Hq'. apply Hall. by right.
Qed.

Lemma Qc_sum_above (m : Qc) (qs : list Qc) :
  qs ≠ [] ->
  (forall q, q ∈ qs -> (m < q)%Qc) ->
  (Qc_of_Z (Z.of_nat (length qs)) * m < Qc_sum qs)%Qc.
Proof.
  destruct qs as [|q qs]; [done|]. intros _ Hall.
  cbn [length Qc_sum foldr]. fold (Qc_sum qs).
  rewrite Qc_of_nat_succ, Qcmult_plus_distr_l, Qcmult_1_l.
  eapply Qclt_le_trans.
  - apply Qcplus_lt_mono_r, Hall. by left.
  - apply Qcplus_le_mono_l, Qc_sum_above_weak. intros q' Hq'. apply Hall. by right.
Qed.

(** Some number of a non-empty list does not exceed the mean. *)
Lemma not_all_above_mean (qs : list Qc) :
  qs ≠ [] -> exists q, q ∈ qs /\ ~ (arithmetic_mean qs < q)%Qc.
Proof.
  intros Hne.
  destruct (decide (Forall (fun q => (arithmetic_mean qs < q)%Qc) qs)) as [Hall|Hn].
  - exfalso. rewrite Forall_forall in Hall.
    pose proof (Qc_sum_above _ _ Hne Hall) as Hlt.
    unfold arithmetic_mean in Hlt at 1. rewrite Qcmult_div_r in Hlt.
    + by apply Qclt_not_eq in Hlt.
    + rewrite <- Z2Qc_inj_0. intros Heq%Z2Qc_inj. destruct qs; [done|]. cbn in Heq. lia.
  - apply not_Forall_Exists in Hn; [|apply _].
    apply Exists_exists in Hn as (q & Hq & Hnq). eauto.
Qed.

Lemma length_present (es : list (option Qc)) :
  (length (omap id es) ≤ length es)%nat.
Proof. unfold omap. induction es as [|[q|] es IH]; simpl; lia. Qed.

(** X12.  On a table whose Est Dia in KM(min) column holds numbers, the
    count returned by [min_max_diameter] is at most the number of rows.
    It is strictly below it on a non-empty table when the mean is
    computed without rounding error, for then some row is not above the
    mean; with rounding it can be the number of rows itself, as on the
    diameters 0.7, 0.7, 0.7. *)
Theorem min_max_diameter_within_row_count (lib : Library) (t : DataFrame) :
  diameter_min ∈ columns t ->
  (forall row, row ∈ rows t -> is_numeric (cell row diameter_min) = true) ->
  exists n,
    min_max_diameter lib t = Ok n /\
    (n ≤ length (rows t))%nat /\
    (rows t ≠ [] ->
     mean_of lib (diameters t) = arithmetic_mean (omap id (diameters t)) ->
     (n < length (rows t))%nat).
Proof.
  intros Hcol Hnum. eexists. split; [by apply min_max_diameter_numeric|].
  assert (length (rows t) = length (diameters t)) as Hlen
    by (unfold diameters; by rewrite length_fmap).
  rewrite Hlen. split; [apply length_filter|].
  intros Hne Hexact. rewrite Hexact, count_above_present.
  destruct (omap id (diameters t)) as [|q qs] eqn:Hpresent.
  - rewrite <- Hlen. destruct (rows t); [done|]. cbn. lia.
  - assert (q :: qs ≠ []) as Hqs by done.
    destruct (not_all_above_mean _ Hqs) as (q' & Hq' & Hnq).
    eapply Nat.lt_le_trans; [by eapply length_filter_lt|].
    rewrite <- Hpresent. apply length_present.
Qed.

Lemma min_max_diameter_within_row_count_witness :
  exists n,
    min_max_diameter reference equal_diameters = Ok n /\
    (n ≤ length (rows equal_diameters))%nat /\
    n = 3%nat.
Proof.
  destruct (min_max_diameter_within_row_count reference equal_diameters)
    as (n & Hn & Hle & _).
  - repeat constructor.
  - intros row Hrow.
    repeat (apply elem_of_cons in Hrow as [->|Hrow]; [reflexivity|]).
    by apply elem_of_nil in Hrow.
  - exists n. split; [exact Hn|]. split; [exact Hle|].
    assert (min_max_diameter reference equal_diameters = Ok 3%nat) as H3
      by (vm_compute; reflexivity).
    rewrite H3 in Hn. by injection Hn.
Defined.

(** ** The report: what it prints first, and what it leaves alone *)

Lemma observer_ret {A : Type} (a : A) : observer (mret a).
Proof. intros st. split; [done|]. by exists []; rewrite app_nil_r. Qed.

Lemma observer_lift {A : Type} (x : result A) : observer (lift x).
Proof. intros st. split; [done|]. by exists []; rewrite app_nil_r. Qed.

Lemma observer_raise {A : Type} c msg : observer (@raise A c msg).
Proof. apply observer_lift. Qed.

Lemma observer_read_frame r : observer (read_frame r).
Proof.
  intros st. unfold read_frame. destruct (store st !! r);
    (split; [done|]); by exists []; rewrite app_nil_r.
Qed.

Lemma observer_emit e : observer (emit e).
Proof. intros st. split; [done|]. by exists [e]. Qed.

Lemma observer_bind {A B : Type} (m : M A) (f : A -> M B) :
  observer m -> (forall a, observer (f a)) -> observer (m ≫= f).
Proof.
  intros Hm Hf st. unfold mbind, M_bind. destruct (Hm st) as [Hs Ho].
  destruct (m st) as [[a|e] st1]; cbn [snd] in *; [|done].
  destruct (Hf a st1) as [Hs' Ho']. split; [congruence|]. by etrans.
Qed.

Lemma observer_for_each {A : Type} (body : A -> M unit) (l : list A) :
  (forall a, observer (body a)) -> observer (for_each body l).
Proof.
  intros Hbody. induction l as [|a l IH]; [apply observer_ret|].
  cbn [for_each]. apply observer_bind; [done|]. by intros _.
Qed.

Ltac observe :=
  repeat first
    [ apply observer_for_each; intros
    | apply observer_bind; [|intros]
    | apply observer_read_frame
    | apply observer_lift
    | apply observer_raise
    | apply observer_ret
    | apply observer_emit
    | match goal with
      | |- observer (let '(_, _) := ?x in _) => destruct x
      | |- observer (if ?b then _ else _) => destruct b
      | |- observer (match ?l with [] => _ | _ :: _ => _ end) => destruct l
      end ].

Lemma observer_run_analysis_and_print lib r :
  observer (run_analysis_and_print lib r).
Proof. unfold run_analysis_and_print, print. observe. Qed.

Lemma observer_plt_hist_diameter_improved lib env r bins color show_grid :
  observer (plt_hist_diameter_improved lib env r bins color show_grid).
Proof. unfold plt_hist_diameter_improved. observe. Qed.

Lemma observer_plt_hist_common_orbit env r : observer (plt_hist_common_orbit env r).
Proof. unfold plt_hist_common_orbit. observe. Qed.

Lemma observer_plt_pie_hazard lib env r : observer (plt_pie_hazard lib env r).
Proof. unfold plt_pie_hazard. observe. Qed.

Lemma observer_plt_linear_motion_magnitude env r :
  observer (plt_linear_motion_magnitude env r).
Proof. unfold plt_linear_motion_magnitude. observe. Qed.

(** X14.  The analysis and the four charts are read-only: whether they
    succeed or fail, no table of the store is changed and nothing
    already printed is lost. *)
Theorem report_is_read_only (lib : Library) (env : Env) (r : ref) (st : State) :
  store (report lib env r st).2 = store st /\
  output st `prefix_of` output (report lib env r st).2 /\
  store (run_analysis_and_print lib r st).2 = store st.
Proof.
  assert (observer (report lib env r)) as Hreport.
  { unfold report.
    apply observer_bind; [apply observer_run_analysis_and_print|intros _].
    apply observer_bind; [apply observer_plt_hist_diameter_improved|intros _].
    apply observer_bind; [apply observer_plt_hist_common_orbit|intros _].
    apply observer_bind; [apply observer_plt_pie_hazard|intros _].
    apply observer_plt_linear_motion_magnitude. }
  destruct (Hreport st) as [Hs Ho].
  destruct (observer_run_analysis_and_print lib r st) as [Hs' _]. done.
Qed.

Lemma bind_ok {A B : Type} (m : M A) (f : A -> M B) st a st1 :
  m st = (Ok a, st1) -> (m ≫= f) st = f a st1.
Proof. intros H. unfold mbind, M_bind. by rewrite H. Qed.

Lemma for_each_print {A : Type} (f : A -> list fragment) (l : list A) st :
  for_each (fun a => print (f a)) l st =
    (Ok tt, mkState (store st) (output st ++ ((fun a => Print (f a)) <$> l))).
Proof.
  revert st. induction l as [|a l IH]; intros st.
  - cbn. rewrite app_nil_r. by destruct st.
  - cbn [for_each]. erewrite bind_ok by reflexivity. rewrite IH.
    cbn [store output fmap list_fmap]. by rewrite <- app_assoc.
Qed.

(** X13.  [run_analysis_and_print] prints the banner, the shape and one
    line per column, in column order, before it queries the table; the
    store is left as it was.  If the first query fails, these lines are
    all that is printed and the failure is passed on. *)
Theorem run_analysis_and_print_header (lib : Library) (st : State) (r : ref)
    (t : DataFrame) :
  store st !! r = Some t ->
  exists res rest,
    run_analysis_and_print lib r st =
      (res, mkState (store st) (output st ++ header_lines t ++ rest)) /\
    (forall e, max_absolute_magnitude t = Err e -> res = Err e /\ rest = []).
Proof.
  intros Hr. unfold run_analysis_and_print.
  erewrite bind_ok by (unfold read_frame; by rewrite Hr).
  do 3 (erewrite bind_ok by reflexivity).
  erewrite bind_ok by apply for_each_print.
  cbn [store output]. unfold shape; cbn [fst snd].
  match goal with
  | |- exists res rest, ?m ?s = _ /\ _ =>
      assert (observer m) as Hobs by (unfold print; observe);
      destruct (Hobs s) as [Hs [rest Ho]]; destruct (m s) as [res st2] eqn:Hrun
  end.
  cbn [snd store output] in *. exists res.
  destruct (max_absolute_magnitude t) as [[n v]|e] eqn:Hmax.
  - exists rest. split; [|done]. f_equal. destruct st2 as [s o]; cbn in *.
    subst. f_equal. unfold header_lines. by rewrite <- !app_assoc.
  - exists []. unfold mbind, M_bind, lift in Hrun. injection Hrun as <- <-.
    split; [|by intros e' [= ->]]. f_equal. f_equal.
    unfold header_lines. by rewrite <- !app_assoc, app_nil_r.
Qed.

Lemma run_analysis_and_print_header_witness :
  exists res rest,
    run_analysis_and_print reference 0%nat (mkState [mkFrame relevant_columns []] []) =
      (res, mkState [mkFrame relevant_columns []]
              ([] ++ header_lines (mkFrame relevant_columns []) ++ rest)) /\
    (forall e, max_absolute_magnitude (mkFrame relevant_columns []) = Err e ->
               res = Err e /\ rest = []).
Proof.
  apply (run_analysis_and_print_header reference
           (mkState [mkFrame relevant_columns []] []) 0%nat
           (mkFrame relevant_columns [])).
  reflexivity.
Defined.

(** ** The charts without the plotting library, and an absent table *)

(** X15.  While the name [plt] is unbound, as in the module as shipped,
    none of the four chart functions shows anything: each one fails and
    leaves store and output as they were. *)
Theorem charts_need_plt (lib : Library) (env : Env) (r : ref) (st : State)
    (bins : nat) (color : string) (show_grid : bool) :
  plt_bound env = false ->
  (exists e, plt_hist_diameter_improved lib env r bins color show_grid st
             = (Err e, st)) /\
  plt_hist_common_orbit env r st = (Err plt_missing, st) /\
  (exists e, plt_pie_hazard lib env r st = (Err e, st)) /\
  (exists e, plt_linear_motion_magnitude env r st = (Err e, st)).
Proof.
  intros Hplt. split; [|split; [|split]].
  - unfold plt_hist_diameter_improved, mbind, M_bind, read_frame, lift.
    rewrite Hplt. destruct (store st !! r) as [t|]; [|eauto].
    destruct (getitem_list t diameter_columns) as [both|]; [|eauto].
    destruct (row_means lib diameter_columns (rows both)); eauto.
  - unfold plt_hist_common_orbit, mbind, M_bind, lift. by rewrite Hplt.
  - unfold plt_pie_hazard, mbind, M_bind, read_frame, lift.
    rewrite Hplt. destruct (store st !! r) as [t|]; [|eauto].
    destruct (getitem t "Hazardous"); eauto.
  - unfold plt_linear_motion_magnitude, mbind, M_bind, read_frame, lift, raise, lift.
    rewrite Hplt. destruct (store st !! r) as [t|]; [|eauto].
    destruct (getitem t "Miles per hour"); [|eauto].
    destruct (getitem t "Absolute Magnitude"); [|eauto].
    destruct (global (np_bound env) "np"); [|eauto].
    destruct (np_has_linregress env); cbn; eauto.
Qed.

Lemma charts_need_plt_witness :
  (exists e, plt_hist_diameter_improved reference
               (shipped (fun _ => Ok observation)) 0%nat
               30 "blue" true (mkState [observation] [])
             = (Err e, mkState [observation] [])) /\
  plt_hist_common_orbit (shipped (fun _ => Ok observation)) 0%nat
    (mkState [observation] []) = (Err plt_missing, mkState [observation] []) /\
  (exists e, plt_pie_hazard reference (shipped (fun _ => Ok observation)) 0%nat
               (mkState [observation] [])
             = (Err e, mkState [observation] [])) /\
  (exists e, plt_linear_motion_magnitude (shipped (fun _ => Ok observation)) 0%nat
               (mkState [observation] [])
             = (Err e, mkState [observation] [])).
Proof.
  apply (charts_need_plt reference (shipped (fun _ => Ok observation)) 0%nat
           (mkState [observation] []) 30 "blue" true).
  reflexivity.
Defined.

Lemma load_data_failure env path st e :
  pd_bound env = true ->
  read_csv env path = Err e ->
  catches Exception_ e = true ->
  load_data env path st =
    (Ok ONone, mkState (store st) (output st ++ [Print (diagnostic e)])).
Proof.
  intros Hpd Hread Hexc.
  unfold load_data, try_except, mbind, M_bind, lift. rewrite Hpd. cbn [global].
  rewrite Hread. destruct e as [c msg]. destruct c; try discriminate Hexc; reflexivity.
Qed.

(** X16.  An absent table is not guarded against: when the read fails
    with an exception, [load_data] prints its diagnostic and returns
    [None], and the statements that follow fail with [TypeError] at the
    first subscript, with nothing else printed and no object created. *)
Theorem absent_table_stops_the_preparation (env : Env) (path : string)
    (st : State) (e : exn) :
  pd_bound env = true ->
  read_csv env path = Err e ->
  catches Exception_ e = true ->
  (load_data env path ≫= prepare) st =
    (Err (Exn TypeError "'NoneType' object is not subscriptable"),
     mkState (store st) (output st ++ [Print (diagnostic e)])).
Proof.
  intros Hpd Hread Hexc.
  erewrite bind_ok by (by apply load_data_failure). reflexivity.
Qed.

Lemma absent_table_stops_the_preparation_witness :
  (load_data (mkEnv true true true false (fun _ => Err (Exn EmptyDataError "")))
             "nasa.csv" ≫= prepare) initial =
    (Err (Exn TypeError "'NoneType' object is not subscriptable"),
     mkState [] [Print msg_empty]).
Proof.
  apply (absent_table_stops_the_preparation
           (mkEnv true true true false (fun _ => Err (Exn EmptyDataError "")))
           "nasa.csv" initial (Exn EmptyDataError ""));
    reflexivity.
Defined.





(** X18.  [run_analysis_and_print] suppresses no failure and adds none:
    it fails exactly when one of the four queries fails, with the
    failure of the first one to fail in the order maximum magnitude,
    closest approach, orbit frequency, diameter count. *)
Theorem run_analysis_and_print_outcome (lib : Library) (st : State) (r : ref)
    (t : DataFrame) :
  store st !! r = Some t ->
  (run_analysis_and_print lib r st).1 =
    (_ ← max_absolute_magnitude t;
     _ ← closest_to_earth t;
     _ ← common_orbit lib t;
     _ ← min_max_diameter lib t;
     Ok tt).
Proof.
  intros Hr. unfold run_analysis_and_print.
  erewrite bind_ok by (unfold read_frame; by rewrite Hr).
  do 3 (erewrite bind_ok by reflexivity).
  erewrite bind_ok by apply for_each_print.
  destruct (max_absolute_magnitude t) as [[n v]|e]; [|reflexivity].
  erewrite bind_ok by reflexivity. cbn beta iota.
  do 2 (erewrite bind_ok by reflexivity).
  destruct (closest_to_earth t) as [c|e]; [|reflexivity].
  erewrite bind_ok by reflexivity. do 3 (erewrite bind_ok by reflexivity).
  destruct (common_orbit lib t) as [vc|e]; [|reflexivity].
  erewrite bind_ok by reflexivity.
  erewrite bind_ok by apply for_each_print.
  destruct (min_max_diameter lib t) as [k|e]; [|reflexivity].
  erewrite bind_ok by reflexivity. erewrite bind_ok by reflexivity.
  reflexivity.
Qed.

Lemma run_analysis_and_print_outcome_witness :
  (run_analysis_and_print reference 0%nat (mkState [observation] [])).1 = Ok tt.
Proof.
  rewrite (run_analysis_and_print_outcome reference
             (mkState [observation] []) 0%nat observation).
  - vm_compute. reflexivity.
  - reflexivity.
Defined.
